(** * SFPLiberate: BLE proxy session handler and ESPHome connection manager

    A shallow embedding of
    - [backend/app/services/esphome/schemas.py]   (MAC address validation),
    - [backend/app/config.py]                     (the ESPHome settings),
    - [backend/app/services/esphome/connection_manager.py],
    - [backend/app/api/v1/ble_proxy.py],
    and the properties of the session protocol established on it.  The
    message classes of [backend/app/schemas/ble.py] are not among the
    sources: they are parameters of the handler, and the write message is
    also modelled from the specification ([BleSchemas]).

    Python text is modelled as [string]; the case mapping [str.upper] is the
    ASCII one, so the development speaks about ASCII text (MAC addresses,
    UUIDs and base64 are ASCII).  Python [bytes] are lists of integers in
    [0, 256).  Coroutines are run to completion: an [await] is a call that
    returns or raises an exception derived from [Exception].  The
    cancellation of a coroutine is not modelled. *)

From Stdlib Require Import ZArith Ascii String List Bool Lia.
From stdpp Require Import base option list strings gmap fin_maps pretty.

Import ListNotations.
Local Open Scope string_scope.
Local Open Scope list_scope.

(** ** Python runtime: exceptions and results *)

Module Py.

(** The exception classes that occur in the modelled files.  Everything
    here derives from [Exception]; [OtherError] stands for any class raised
    by an external collaborator. *)
Inductive ExcClass : Type :=
| TimeoutError
| RuntimeError
| ValueError
| ImportError
| AttributeError
| BinasciiError
| ValidationError
| JSONDecodeError
| BLENotAvailableError
| OtherError (name : string).

(** An exception instance: its class and [str(e)]. *)
Record Exception : Type := mkExc { exc_class : ExcClass; exc_str : string }.

Inductive Result (A : Type) : Type :=
| Ok (a : A)
| Raise (e : Exception).
Arguments Ok {A} a.
Arguments Raise {A} e.

Definition is_ok {A} (r : Result A) : bool :=
  match r with Ok _ => true | Raise _ => false end.

Definition is_timeout (e : Exception) : bool :=
  match exc_class e with TimeoutError => true | _ => false end.

(** A computation over a mutable world [S] that may raise.  The world is
    returned on both exits: Python does not roll mutations back. *)
Definition M (S A : Type) : Type := S -> Result A * S.

Definition ret {S A} (a : A) : M S A := fun s => (Ok a, s).
Definition raise {S A} (e : Exception) : M S A := fun s => (Raise e, s).
Definition bind {S A B} (m : M S A) (k : A -> M S B) : M S B :=
  fun s => match m s with
           | (Ok a, s') => k a s'
           | (Raise e, s') => (Raise e, s')
           end.
Definition get {S} : M S S := fun s => (Ok s, s).
Definition modify {S} (f : S -> S) : M S unit := fun s => (Ok tt, f s).

(** [try: body except Exception as e: handler e].  The inhabitants of
    [Exception] are instances of Python's [Exception], so the handler
    takes whatever the body raises.  What [except Exception] lets pass
    ([asyncio.CancelledError] and the other classes derived from
    [BaseException] only) has no counterpart here: a run in which an
    awaited call is cancelled is outside the embedding. *)
Definition try_except {S A} (body : M S A) (handler : Exception -> M S A) : M S A :=
  fun s => match body s with
           | (Ok a, s') => (Ok a, s')
           | (Raise e, s') => handler e s'
           end.

(** [try: body finally: cleanup] with a cleanup that does not raise. *)
Definition try_finally {S A} (body : M S A) (cleanup : S -> S) : M S A :=
  fun s => let '(r, s') := body s in (r, cleanup s').

(** ASCII [str.upper]. *)
Definition upper_char (c : ascii) : ascii :=
  let n := nat_of_ascii c in
  if (97 <=? n)%nat && (n <=? 122)%nat then ascii_of_nat (n - 32) else c.

Fixpoint upper (s : string) : string :=
  match s with
  | EmptyString => EmptyString
  | String c s' => String (upper_char c) (upper s')
  end.

(** [str.replace(old, new)] for one-character [old] and [new]. *)
Fixpoint replace_char (old new : ascii) (s : string) : string :=
  match s with
  | EmptyString => EmptyString
  | String c s' =>
      String (if Ascii.eqb c old then new else c) (replace_char old new s')
  end.

Definition LF : ascii := ascii_of_nat 10.

(** [logging] levels. *)
Inductive Level : Type := DEBUG | INFO | WARNING | ERROR.

End Py.

Export Py.

Declare Scope py_scope.
Delimit Scope py_scope with py.
Notation "x <- m ;; k" := (Py.bind m (fun x => k))
  (at level 100, m at next level, right associativity) : py_scope.
Notation "m ;;; k" := (Py.bind m (fun _ => k))
  (at level 100, right associativity) : py_scope.

(** ** [re.match] for the fragment of patterns used by the schemas *)

Module Re.

Inductive regex : Type :=
| Bol                                   (* ^ *)
| Eol                                   (* $ *)
| Lit (c : ascii)
| Cls (p : ascii -> bool)               (* [...] *)
| Cat (r1 r2 : regex)
| Rep (n : nat) (r : regex).            (* r{n} *)

(** [$] without [re.MULTILINE]: the end of the text, or just before a
    line feed that is the last character of the text. *)
Definition at_eol (rest : list ascii) : bool :=
  match rest with
  | [] => true
  | [c] => Ascii.eqb c LF
  | _ => false
  end.

(** Backtracking matcher in continuation style; [pos] is the number of
    characters consumed so far. *)
Fixpoint run (r : regex) (pos : nat) (s : list ascii)
         (k : nat -> list ascii -> bool) : bool :=
  match r with
  | Bol => Nat.eqb pos 0 && k pos s
  | Eol => at_eol s && k pos s
  | Lit c => match s with
             | x :: s' => Ascii.eqb x c && k (S pos) s'
             | [] => false
             end
  | Cls p => match s with
             | x :: s' => p x && k (S pos) s'
             | [] => false
             end
  | Cat r1 r2 => run r1 pos s (fun pos' s' => run r2 pos' s' k)
  | Rep n r' =>
      (fix loop (n : nat) (pos : nat) (s : list ascii) : bool :=
         match n with
         | O => k pos s
         | S m => run r' pos s (fun pos' s' => loop m pos' s')
         end) n pos s
  end.

(** [re.match(r, s) is not None]: a match anchored at the start that may
    stop before the end of [s]. *)
Definition re_match (r : regex) (s : string) : bool :=
  run r 0 (list_ascii_of_string s) (fun _ _ => true).

End Re.

(** ** schemas.py *)

Module Schemas.

Import Re.

Definition is_digit (c : ascii) : bool :=
  let n := nat_of_ascii c in (48 <=? n)%nat && (n <=? 57)%nat.

(** [[0-9A-F]] *)
Definition hex_upper (c : ascii) : bool :=
  let n := nat_of_ascii c in
  is_digit c || ((65 <=? n)%nat && (n <=? 70)%nat).

(** [r"^([0-9A-F]{2}:){5}[0-9A-F]{2}$"] *)
Definition MAC_PATTERN : regex :=
  Cat Bol
    (Cat (Rep 5 (Cat (Rep 2 (Cls hex_upper)) (Lit ":")))
       (Cat (Rep 2 (Cls hex_upper)) Eol)).

Definition INVALID_MAC : Exception :=
  mkExc ValueError
    "Invalid MAC address format. Expected format: AA:BB:CC:DD:EE:FF".

(** [v.upper().replace("-", ":")] *)
Definition normalize_mac (v : string) : string :=
  replace_char "-" ":" (upper v).

(** The [mac_address] field validator, the same in [DiscoveredDevice],
    [DeviceConnectionRequest], [BLEDeviceProfile] and
    [BLEDeviceProfileCreate]. *)
Definition validate_mac_address (v : string) : Result string :=
  let v := normalize_mac v in
  if negb (re_match MAC_PATTERN v) then Raise INVALID_MAC
  else Ok v.

(** The canonical form in the words of the specification: six pairs of
    uppercase hexadecimal digits separated by colons, and nothing else. *)
Fixpoint canonical_from (groups : nat) (s : list ascii) : bool :=
  match groups, s with
  | 1%nat, [a; b] => hex_upper a && hex_upper b
  | S g, a :: b :: c :: rest =>
      hex_upper a && hex_upper b && Ascii.eqb c ":" && canonical_from g rest
  | _, _ => false
  end.

Definition is_canonical_mac (s : string) : bool :=
  canonical_from 6 (list_ascii_of_string s).

(** The pattern, read off as a recursion over the groups of the address:
    [groups] times two digits and a colon, then whatever [rest] accepts. *)
Fixpoint groups_then (groups : nat) (s : list ascii) (rest : list ascii -> bool)
  : bool :=
  match groups with
  | O => rest s
  | S g =>
      match s with
      | a :: b :: c :: s' =>
          hex_upper a && hex_upper b && Ascii.eqb c ":" && groups_then g s' rest
      | _ => false
      end
  end.

Definition pair_then (tail : list ascii -> bool) (s : list ascii) : bool :=
  match s with
  | a :: b :: s' => hex_upper a && hex_upper b && tail s'
  | _ => false
  end.

Definition is_nil (s : list ascii) : bool :=
  match s with [] => true | _ => false end.

End Schemas.

(** ** The standard library's base64 codec *)

Module Base64.

(** [table_a2b_base64]: the value of a character of the standard
    alphabet, [None] for every other character. *)
Definition b64_value (c : ascii) : option Z :=
  let n := Z.of_nat (nat_of_ascii c) in
  if (65 <=? n)%Z && (n <=? 90)%Z then Some (n - 65)%Z
  else if (97 <=? n)%Z && (n <=? 122)%Z then Some (n - 71)%Z
  else if (48 <=? n)%Z && (n <=? 57)%Z then Some (n + 4)%Z
  else if (n =? 43)%Z then Some 62%Z
  else if (n =? 47)%Z then Some 63%Z
  else None.

Definition u8 (z : Z) : Z := Z.land z 255.

Definition one_extra_character (decoded : nat) : Exception :=
  mkExc BinasciiError
    ("Invalid base64-encoded string: number of data characters ("
       +:+ pretty (decoded / 3 * 4 + 1)%nat
       +:+ ") cannot be 1 more than a multiple of 4").

Definition incorrect_padding : Exception :=
  mkExc BinasciiError "Incorrect padding".

(** [binascii.a2b_base64] with [strict_mode=False]: characters outside
    the alphabet are skipped, a complete pad sequence stops the scan, and
    only an incomplete final quad is an error. *)
Fixpoint a2b_base64 (s : list ascii) (quad_pos : nat) (leftchar : Z)
         (pads : nat) (out : list Z) : Result (list Z) :=
  match s with
  | [] =>
      match quad_pos with
      | O => Ok out
      | 1%nat => Raise (one_extra_character (length out))
      | _ => Raise incorrect_padding
      end
  | c :: s' =>
      if Ascii.eqb c "=" then
        if (2 <=? quad_pos)%nat then
          if (4 <=? quad_pos + S pads)%nat then Ok out
          else a2b_base64 s' quad_pos leftchar (S pads) out
        else a2b_base64 s' quad_pos leftchar pads out
      else
        match b64_value c with
        | None => a2b_base64 s' quad_pos leftchar pads out
        | Some v =>
            match quad_pos with
            | O => a2b_base64 s' 1 v 0 out
            | 1%nat =>
                a2b_base64 s' 2 (Z.land v 15) 0
                  (out ++ [u8 (Z.lor (Z.shiftl leftchar 2) (Z.shiftr v 4))])
            | 2%nat =>
                a2b_base64 s' 3 (Z.land v 3) 0
                  (out ++ [u8 (Z.lor (Z.shiftl leftchar 4) (Z.shiftr v 2))])
            | _ =>
                a2b_base64 s' 0 0 0
                  (out ++ [u8 (Z.lor (Z.shiftl leftchar 6) v)])
            end
        end
  end.

Definition is_ascii (c : ascii) : bool := (nat_of_ascii c <? 128)%nat.

(** [base64.b64decode(s)] for a [str] argument, default [validate=False]. *)
Definition b64decode (s : string) : Result (list Z) :=
  let cs := list_ascii_of_string s in
  if forallb is_ascii cs then a2b_base64 cs 0 0 0 []
  else Raise (mkExc ValueError
                "string argument should contain only ASCII characters").

Definition ALPHABET : string :=
  "ABCDEFGHIJKLMNOPQRSTUVWXYZabcdefghijklmnopqrstuvwxyz0123456789+/".

Definition b64_char (v : Z) : ascii :=
  match String.get (Z.to_nat v) ALPHABET with
  | Some c => c
  | None => "="%char
  end.

(** [base64.b64encode(data).decode("utf-8")] *)
Fixpoint b64encode (data : list Z) : string :=
  match data with
  | [] => ""
  | [a] =>
      String (b64_char (Z.shiftr a 2))
        (String (b64_char (Z.shiftl (Z.land a 3) 4)) "==")
  | [a; b] =>
      String (b64_char (Z.shiftr a 2))
        (String (b64_char (Z.lor (Z.shiftl (Z.land a 3) 4) (Z.shiftr b 4)))
           (String (b64_char (Z.shiftl (Z.land b 15) 2)) "="))
  | a :: b :: c :: rest =>
      String (b64_char (Z.shiftr a 2))
        (String (b64_char (Z.lor (Z.shiftl (Z.land a 3) 4) (Z.shiftr b 4)))
           (String (b64_char (Z.lor (Z.shiftl (Z.land b 15) 2) (Z.shiftr c 6)))
              (String (b64_char (Z.land c 63)) (b64encode rest))))
  end.

Definition in_alphabet (c : ascii) : bool :=
  match b64_value c with Some _ => true | None => false end.

(** Standard base64 text in the words of the specification (RFC 4648):
    a multiple of four characters, all of the alphabet, with at most two
    pad characters, at the very end. *)
Fixpoint standard_quads (s : list ascii) : bool :=
  match s with
  | [] => true
  | [a; b; c; d] =>
      in_alphabet a && in_alphabet b
      && ((in_alphabet c && (in_alphabet d || Ascii.eqb d "="))
          || (Ascii.eqb c "=" && Ascii.eqb d "="))
  | a :: b :: c :: d :: rest =>
      in_alphabet a && in_alphabet b
      && in_alphabet c && in_alphabet d
      && standard_quads rest
  | _ => false
  end.

Definition is_standard_base64 (s : string) : bool :=
  standard_quads (list_ascii_of_string s).






End Base64.

(** ** config.py *)

Module Config.

(** The ESPHome part of [Settings]; timeouts are seconds. *)
Record Settings : Type := mkSettings {
  esphome_proxy_mode : bool;
  esphome_discovery_timeout : Z;
  esphome_connection_timeout : Z;
  esphome_scan_duration : Z;
  esphome_proxy_port : Z
}.

(** The class defaults, in force when the environment sets nothing. *)
Definition default_settings : Settings :=
  {| esphome_proxy_mode := false;
     esphome_discovery_timeout := 10;
     esphome_connection_timeout := 30;
     esphome_scan_duration := 10;
     esphome_proxy_port := 6053 |}.

End Config.

(** ** connection_manager.py *)

Module ConnectionManager.

Import Config.

(** An [aioesphomeapi.APIClient] object and a Python callable, each known
    by its identity. *)
Definition APIClient : Type := nat.
Definition Callback : Type := nat.

(** What a notification carries: [bytes], or the [list[int]] the ESPHome
    API hands over. *)
Inductive RawPayload : Type :=
| PBytes (b : list Z)
| PList (l : list Z).

(** The closure [on_notification] built by [_subscribe_notifications]: its
    free variables are the arguments of that call. *)
Record Closure : Type := mkClosure {
  cl_mac_address : string;
  cl_characteristic_uuid : string;
  cl_callback : Callback
}.

(** The methods of [APIClient] the manager calls, with their arguments. *)
Inductive ApiCall : Type :=
| bluetooth_device_connect (address : string)
| bluetooth_device_disconnect (address : string)
| bluetooth_gatt_write (address : string) (handle : Z) (data : list Z)
                       (response : bool)
| subscribe_bluetooth_le_raw_advertisements (on_bluetooth_le_advertisement : Closure).

Record ActiveConnection : Type := mkActiveConnection {
  mac_address : string;
  device_name : option string;
  proxy_name : string;
  client : APIClient;
  service_uuid : string;
  notify_char_uuid : string;
  write_char_uuid : string;
  notification_callback : option Callback
}.

Definition clear_callback (c : ActiveConnection) : ActiveConnection :=
  {| mac_address := mac_address c;
     device_name := device_name c;
     proxy_name := proxy_name c;
     client := client c;
     service_uuid := service_uuid c;
     notify_char_uuid := notify_char_uuid c;
     write_char_uuid := write_char_uuid c;
     notification_callback := None |}.

(** The manager together with what it acts on: [self.connections], the
    calls made on API clients so far, the log, and the invocations of
    notification callbacks (callable, characteristic, payload). *)
Record World : Type := mkWorld {
  connections : gmap string ActiveConnection;
  api_calls : list (APIClient * ApiCall);
  log : list (Level * string);
  callback_calls : list (Callback * string * list Z)
}.

Definition set_connections (f : gmap string ActiveConnection -> gmap string ActiveConnection)
           (w : World) : World :=
  {| connections := f (connections w);
     api_calls := api_calls w;
     log := log w;
     callback_calls := callback_calls w |}.

Definition record_call (c : APIClient) (call : ApiCall) (w : World) : World :=
  {| connections := connections w;
     api_calls := api_calls w ++ [(c, call)];
     log := log w;
     callback_calls := callback_calls w |}.

Definition record_log (lvl : Level) (msg : string) (w : World) : World :=
  {| connections := connections w;
     api_calls := api_calls w;
     log := log w ++ [(lvl, msg)];
     callback_calls := callback_calls w |}.

Definition record_callback (cb : Callback) (uuid : string) (data : list Z)
           (w : World) : World :=
  {| connections := connections w;
     api_calls := api_calls w;
     log := log w;
     callback_calls := callback_calls w ++ [(cb, uuid, data)] |}.

(** The world of a fresh manager: [self.connections = {}]. *)
Definition init : World :=
  {| connections := ∅; api_calls := []; log := []; callback_calls := [] |}.

(** [ConnectionManager()] *)
Definition new_manager (ESPHOME_AVAILABLE : bool) : Result World :=
  if ESPHOME_AVAILABLE then Ok init
  else Raise (mkExc ImportError
                "aioesphomeapi not installed. Install with: pip install aioesphomeapi").

Definition logger (lvl : Level) (msg : string) : M World unit :=
  modify (record_log lvl msg).

(** [bytes(data)] for a list of integers. *)
Definition bytes_of_list (l : list Z) : Result (list Z) :=
  if forallb (fun x => (0 <=? x)%Z && (x <? 256)%Z) l then Ok l
  else Raise (mkExc ValueError "bytes must be in range(0, 256)").

Definition payload_len (d : RawPayload) : nat :=
  match d with PBytes b => length b | PList l => length l end.

Section WithTransport.

(** The settings returned by [get_settings()]. *)
Variable settings : Settings.

(** The ESPHome transport is an external collaborator.  Given the calls
    made so far, [api_result] is what a call on a client yields once it
    finishes and [api_latency] the seconds it takes to finish, [None]
    when it never does.  An [await] without a bound is assumed to
    finish. *)
Variable api_result : list (APIClient * ApiCall) -> APIClient -> ApiCall -> Result unit.
Variable api_latency : list (APIClient * ApiCall) -> APIClient -> ApiCall -> option Z.

(** What calling a notification callback yields. *)
Variable callback_result : Callback -> string -> list Z -> Result unit.

(** [await client.method(...)] *)
Definition await (c : APIClient) (call : ApiCall) : M World unit :=
  fun w => (api_result (api_calls w) c call, record_call c call w).

Definition completes_within (timeout : Z) (latency : option Z) : bool :=
  match latency with
  | Some d => (d <? timeout)%Z
  | None => false
  end.

(** [await asyncio.wait_for(client.method(...), timeout=timeout)] *)
Definition wait_for (c : APIClient) (call : ApiCall) (timeout : Z) : M World unit :=
  fun w =>
    (if completes_within timeout (api_latency (api_calls w) c call)
     then api_result (api_calls w) c call
     else Raise (mkExc TimeoutError ""),
     record_call c call w).

(** The body of the closure [on_notification(address, handle, data)]. *)
Definition on_notification (cl : Closure) (address : string) (handle : Z)
           (data : RawPayload) : World -> World :=
  fun w =>
    if String.eqb (upper address) (upper (cl_mac_address cl)) then
      let w := record_log DEBUG
                 ("Notification received: " +:+ pretty (payload_len data)
                    +:+ " bytes from " +:+ cl_characteristic_uuid cl) w in
      snd (try_except
             (data <- (fun w => (match data with
                                 | PBytes b => Ok b
                                 | PList l => bytes_of_list l
                                 end, w)) ;;
              fun w => (callback_result (cl_callback cl) (cl_characteristic_uuid cl) data,
                        record_callback (cl_callback cl) (cl_characteristic_uuid cl) data w))%py
             (fun e => logger ERROR ("Error in notification callback: " +:+ exc_str e))
             w)
    else w.

Definition _subscribe_notifications (client : APIClient)
           (mac_address characteristic_uuid : string) (callback : Callback)
  : M World unit :=
  (logger INFO ("Subscribing to notifications from " +:+ characteristic_uuid
                  +:+ " on " +:+ mac_address) ;;;
   try_except
     (await client
        (subscribe_bluetooth_le_raw_advertisements
           (mkClosure mac_address characteristic_uuid callback)) ;;;
      logger INFO ("Subscribed to notifications from " +:+ characteristic_uuid))
     (fun e =>
        logger ERROR ("Failed to subscribe to notifications: " +:+ exc_str e) ;;;
        raise (mkExc RuntimeError ("Subscription failed: " +:+ exc_str e))))%py.

Definition disconnect_device (client_id : string) : M World unit :=
  (w <- get ;;
   match connections w !! client_id with
   | None =>
       logger WARNING ("No active connection for client " +:+ client_id)
   | Some connection =>
       logger INFO ("Disconnecting device " +:+ mac_address connection
                      +:+ " for client " +:+ client_id) ;;;
       try_finally
         (try_except
            ((match notification_callback connection with
              | Some _ =>
                  modify (set_connections (alter clear_callback client_id))
              | None => ret tt
              end) ;;;
             await (client connection)
               (bluetooth_device_disconnect (mac_address connection)) ;;;
             logger INFO ("Disconnected from device " +:+ mac_address connection))
            (fun e => logger WARNING ("Error disconnecting device: " +:+ exc_str e)))
         (set_connections (delete client_id))
   end)%py.

Definition CONNECTION_TIMEOUT : Exception :=
  mkExc RuntimeError "Connection timeout - device may be out of range or busy".

Definition connect_device (client_id mac_address proxy_name : string)
           (client : APIClient)
           (service_uuid notify_char_uuid write_char_uuid : string)
           (device_name : option string)
           (notification_callback : option Callback) : M World unit :=
  (w <- get ;;
   (match connections w !! client_id with
    | Some _ => disconnect_device client_id
    | None => ret tt
    end) ;;;
   logger INFO ("Connecting to device " +:+ mac_address +:+ " via proxy "
                  +:+ proxy_name +:+ " for client " +:+ client_id) ;;;
   try_except
     (wait_for client (bluetooth_device_connect mac_address)
        (esphome_connection_timeout settings) ;;;
      logger INFO ("Connected to device " +:+ mac_address) ;;;
      (match notification_callback with
       | Some callback =>
           _subscribe_notifications client mac_address notify_char_uuid callback
       | None => ret tt
       end) ;;;
      modify (set_connections
                (insert client_id
                   (mkActiveConnection mac_address device_name proxy_name client
                      service_uuid notify_char_uuid write_char_uuid
                      notification_callback))) ;;;
      logger INFO ("Device connection established for client " +:+ client_id))
     (fun e =>
        if is_timeout e then
          logger ERROR ("Timeout connecting to device " +:+ mac_address) ;;;
          raise CONNECTION_TIMEOUT
        else
          logger ERROR ("Failed to connect to device " +:+ mac_address
                          +:+ ": " +:+ exc_str e) ;;;
          raise (mkExc RuntimeError ("Connection failed: " +:+ exc_str e))))%py.

Definition NOT_CONNECTED : Exception :=
  mkExc ValueError "No active connection - connect first".

Definition write_characteristic (client_id characteristic_uuid : string)
           (data : list Z) (with_response : bool) : M World unit :=
  (w <- get ;;
   match connections w !! client_id with
   | None => raise NOT_CONNECTED
   | Some connection =>
       (if negb (String.eqb (upper characteristic_uuid)
                   (upper (write_char_uuid connection)))
        then logger WARNING
               ("Write to non-standard characteristic " +:+ characteristic_uuid
                  +:+ " (expected " +:+ write_char_uuid connection +:+ ")")
        else ret tt) ;;;
       logger DEBUG ("Writing " +:+ pretty (length data)
                       +:+ " bytes to characteristic " +:+ characteristic_uuid
                       +:+ " on device " +:+ mac_address connection) ;;;
       try_except
         (await (client connection)
            (bluetooth_gatt_write (mac_address connection) 0 data with_response) ;;;
          logger DEBUG ("Write completed to " +:+ characteristic_uuid))
         (fun e =>
            logger ERROR ("Write failed: " +:+ exc_str e) ;;;
            raise (mkExc RuntimeError ("Write failed: " +:+ exc_str e)))
   end)%py.

Definition get_connection (client_id : string) (w : World) : option ActiveConnection :=
  connections w !! client_id.

Definition is_connected (client_id : string) (w : World) : bool :=
  bool_decide (is_Some (connections w !! client_id)).

(** [for client_id in list(self.connections.keys()): ...] over a snapshot
    of the keys.  The registry does not record insertion order, so the
    keys are visited in the order of [map_to_list]. *)
Fixpoint disconnect_each (client_ids : list string) : M World unit :=
  match client_ids with
  | [] => ret tt
  | client_id :: rest =>
      (disconnect_device client_id ;;; disconnect_each rest)%py
  end.

Definition disconnect_all : M World unit :=
  (w <- get ;;
   logger INFO ("Disconnecting " +:+ pretty (size (connections w))
                  +:+ " active connections...") ;;;
   disconnect_each (map fst (map_to_list (connections w))) ;;;
   logger INFO "All connections disconnected")%py.

(** The operations a caller can issue on the manager. *)
Inductive Op : Type :=
| OpConnect (client_id mac_address proxy_name : string) (client : APIClient)
            (service_uuid notify_char_uuid write_char_uuid : string)
            (device_name : option string)
            (notification_callback : option Callback)
| OpDisconnect (client_id : string)
| OpWrite (client_id characteristic_uuid : string) (data : list Z)
          (with_response : bool)
| OpDisconnectAll.

Definition run_op (op : Op) : M World unit :=
  match op with
  | OpConnect cid mac proxy c svc ntf wr name cb =>
      connect_device cid mac proxy c svc ntf wr name cb
  | OpDisconnect cid => disconnect_device cid
  | OpWrite cid uuid data resp => write_characteristic cid uuid data resp
  | OpDisconnectAll => disconnect_all
  end.

(** A caller that issues [ops] one after the other, going on after an
    operation that raised. *)
Definition run_ops (ops : list Op) (w : World) : World :=
  fold_left (fun w op => snd (run_op op w)) ops w.

(** The ActiveConnection objects the registry holds for a session. *)
Definition active_connections (client_id : string) (w : World)
  : list ActiveConnection :=
  map snd (filter (fun kv => fst kv = client_id) (map_to_list (connections w))).

End WithTransport.

End ConnectionManager.

(** ** ble_proxy.py *)

Module BLEProxy.

Import Base64.

(** What [json.loads] returns: [None], [bool], [int], [float] (kept as its
    literal), [str], [list], or [dict] (its items; keys are unique). *)
#[local] Unset Elimination Schemes.
Inductive Json : Type :=
| JNull
| JBool (b : bool)
| JInt (z : Z)
| JFloat (literal : string)
| JString (s : string)
| JArray (items : list Json)
| JObject (items : list (string * Json)).
#[local] Set Elimination Schemes.

Definition type_name (v : Json) : string :=
  match v with
  | JNull => "NoneType"
  | JBool _ => "bool"
  | JInt _ => "int"
  | JFloat _ => "float"
  | JString _ => "str"
  | JArray _ => "list"
  | JObject _ => "dict"
  end.

(** [d.get(key)] on a dict. *)
Fixpoint dict_get (key : string) (items : list (string * Json)) : Json :=
  match items with
  | [] => JNull
  | (k, v) :: rest => if String.eqb k key then v else dict_get key rest
  end.

(** [message.get("type")] on whatever [json.loads] returned. *)
Definition get_type (message : Json) : Result Json :=
  match message with
  | JObject items => Ok (dict_get "type" items)
  | v => Raise (mkExc AttributeError
                  ("'" +:+ type_name v +:+ "' object has no attribute 'get'"))
  end.

Inductive BLEMessageType : Type :=
| CONNECT | DISCONNECT | WRITE | SUBSCRIBE | UNSUBSCRIBE | DISCOVER.

(** Modelled from the spec: [app.schemas.ble.BLEMessageType] is not among
    the sources; its values are the command tags of the wire protocol,
    [connect], [disconnect], [write], [subscribe], [unsubscribe] and
    [discover]. *)
Definition tag (t : BLEMessageType) : string :=
  match t with
  | CONNECT => "connect"
  | DISCONNECT => "disconnect"
  | WRITE => "write"
  | SUBSCRIBE => "subscribe"
  | UNSUBSCRIBE => "unsubscribe"
  | DISCOVER => "discover"
  end.

(** [msg_type == BLEMessageType.X] *)
Definition type_is (msg_type : Json) (t : BLEMessageType) : bool :=
  match msg_type with
  | JString s => String.eqb s (tag t)
  | _ => false
  end.

(** The client messages, with the fields the handler reads. *)
Record BLEConnectMessage : Type := mkConnect {
  connect_service_uuid : option string;
  connect_device_address : option string
}.
Record BLEWriteMessage : Type := mkWrite {
  write_characteristic_uuid : string;
  write_data : string;
  write_with_response : bool
}.
Record BLESubscribeMessage : Type := mkSubscribe {
  subscribe_characteristic_uuid : string
}.
Record BLEUnsubscribeMessage : Type := mkUnsubscribe {
  unsubscribe_characteristic_uuid : string
}.
Record BLEDiscoverMessage : Type := mkDiscover {
  discover_service_uuid : option string;
  discover_timeout : Z
}.

(** The [device_info] dict returned by the manager's [connect]. *)
Record DeviceInfo : Type := mkDeviceInfo {
  info_name : string;
  info_address : string;
  info_services : list string
}.

(** The server messages, as built by the handler ([model_dump] of the
    [BLE...Message] classes). *)
Inductive Event : Type :=
| Connected (device_name device_address : string) (services : list string)
| Disconnected (reason : string)
| Status (connected : bool) (device_name : option string) (message : string)
| Error (error : string) (details : option (list (string * Json)))
| Notification (characteristic_uuid data : string)
| Discovered (devices : list Json).

(** The calls the handler makes on [self.ble_manager]. *)
Inductive ManagerCall : Type :=
| MConnect (service_uuid device_address : option string)
| MDisconnect
| MWrite (characteristic_uuid : string) (data : list Z) (with_response : bool)
| MSubscribe (characteristic_uuid : string)
| MUnsubscribe (characteristic_uuid : string)
| MDiscover (service_uuid : option string) (timeout : Z).

(** The BLE manager of [app.services.ble_manager], an external
    collaborator: an object with state [T], two properties and six
    coroutines. *)
Class BLEManager (T : Type) : Type := {
  is_connected : T -> bool;
  device_address : T -> option string;
  connect : option string -> option string -> T -> Result DeviceInfo * T;
  disconnect : T -> Result unit * T;
  write : string -> list Z -> bool -> T -> Result unit * T;
  subscribe : string -> T -> Result unit * T;
  unsubscribe : string -> T -> Result unit * T;
  discover_devices : option string -> Z -> T -> Result (list Json) * T
}.

(** What [websocket.receive_text()] yields in one round of the loop. *)
Inductive Incoming : Type :=
| Text (data : string)
| WebSocketDisconnect
| ReceiveError (e : Exception).

Section Handler.

Context {T : Type} `{BLEManager T}.

(** [json.loads], [str()] of a decoded value, and the constructors of
    the message classes of [app.schemas.ble] (pydantic validation of the
    items of the decoded dict). *)
Variable json_loads : string -> Result Json.
Variable py_str : Json -> string.
Variable BLEConnectMessage_init : list (string * Json) -> Result BLEConnectMessage.
Variable BLEDisconnectMessage_init : list (string * Json) -> Result unit.
Variable BLEWriteMessage_init : list (string * Json) -> Result BLEWriteMessage.
Variable BLESubscribeMessage_init : list (string * Json) -> Result BLESubscribeMessage.
Variable BLEUnsubscribeMessage_init : list (string * Json) -> Result BLEUnsubscribeMessage.
Variable BLEDiscoverMessage_init : list (string * Json) -> Result BLEDiscoverMessage.

(** What [websocket.send_json] yields, given the frames passed to it so
    far. *)
Variable send_json : list Event -> Event -> Result unit.

(** [get_ble_manager()] *)
Variable get_ble_manager : Result T.

(** A [BLEProxyHandler]: its attributes, the frames passed to
    [websocket.send_json] (the last one may have failed), the calls made
    on the manager, and the log. *)
Record Handler : Type := mkHandler {
  ble_manager : option T;
  running : bool;
  sent : list Event;
  manager_calls : list ManagerCall;
  log : list (Level * string)
}.

(** [BLEProxyHandler(websocket)] *)
Definition init : Handler :=
  {| ble_manager := None; running := false; sent := [];
     manager_calls := []; log := [] |}.

Definition set_ble_manager (m : option T) (h : Handler) : Handler :=
  {| ble_manager := m; running := running h; sent := sent h;
     manager_calls := manager_calls h; log := log h |}.

Definition set_running (b : bool) (h : Handler) : Handler :=
  {| ble_manager := ble_manager h; running := b; sent := sent h;
     manager_calls := manager_calls h; log := log h |}.

Definition record_sent (ev : Event) (h : Handler) : Handler :=
  {| ble_manager := ble_manager h; running := running h;
     sent := sent h ++ [ev];
     manager_calls := manager_calls h; log := log h |}.

Definition record_manager_call (c : ManagerCall) (h : Handler) : Handler :=
  {| ble_manager := ble_manager h; running := running h; sent := sent h;
     manager_calls := manager_calls h ++ [c]; log := log h |}.

Definition record_log (lvl : Level) (msg : string) (h : Handler) : Handler :=
  {| ble_manager := ble_manager h; running := running h; sent := sent h;
     manager_calls := manager_calls h; log := log h ++ [(lvl, msg)] |}.

Definition logger (lvl : Level) (msg : string) : M Handler unit :=
  modify (record_log lvl msg).

Definition lift {A} (r : Result A) : M Handler A := fun h => (r, h).

(** [await self.ble_manager.method(...)] *)
Definition call_manager {A} (method : string) (c : ManagerCall)
           (op : T -> Result A * T) : M Handler A :=
  fun h =>
    match ble_manager h with
    | None =>
        (Raise (mkExc AttributeError
                  ("'NoneType' object has no attribute '" +:+ method +:+ "'")), h)
    | Some m =>
        let '(r, m') := op m in
        (r, record_manager_call c (set_ble_manager (Some m') h))
    end.

Definition send_message (message : Event) : M Handler unit :=
  fun h =>
    match send_json (sent h) message with
    | Ok _ => (Ok tt, record_sent message h)
    | Raise e =>
        (Ok tt,
         set_running false
           (record_log ERROR ("Error sending message: " +:+ exc_str e)
              (record_sent message h)))
    end.

Definition send_error (error : string) (details : option (list (string * Json)))
  : M Handler unit :=
  send_message (Error error details).

Definition send_status (connected : bool) (message : string) : M Handler unit :=
  (h <- get ;;
   let device_name :=
     match ble_manager h with
     | Some m => if is_connected m then device_address m else None
     | None => None
     end in
   send_message (Status connected device_name message))%py.

Definition handle_connect (message : BLEConnectMessage) : M Handler unit :=
  try_except
    (device_info <- call_manager "connect"
                      (MConnect (connect_service_uuid message)
                         (connect_device_address message))
                      (connect (connect_service_uuid message)
                         (connect_device_address message)) ;;
     send_message (Connected (info_name device_info) (info_address device_info)
                     (info_services device_info)))%py
    (fun e =>
       logger ERROR ("Connect failed: " +:+ exc_str e) ;;;
       send_error ("Connect failed: " +:+ exc_str e) None)%py.

Definition handle_disconnect (message : unit) : M Handler unit :=
  try_except
    (call_manager "disconnect" MDisconnect disconnect ;;;
     send_message (Disconnected "User requested disconnect"))%py
    (fun e =>
       logger ERROR ("Disconnect failed: " +:+ exc_str e) ;;;
       send_error ("Disconnect failed: " +:+ exc_str e) None)%py.

Definition handle_write (message : BLEWriteMessage) : M Handler unit :=
  try_except
    (data <- lift (b64decode (write_data message)) ;;
     call_manager "write"
       (MWrite (write_characteristic_uuid message) data
          (write_with_response message))
       (write (write_characteristic_uuid message) data
          (write_with_response message)) ;;;
     send_status true
       ("Wrote " +:+ pretty (length data) +:+ " bytes to "
          +:+ write_characteristic_uuid message))%py
    (fun e =>
       logger ERROR ("Write failed: " +:+ exc_str e) ;;;
       send_error ("Write failed: " +:+ exc_str e) None)%py.

(** The closure [notification_callback(char_uuid, data)] handed to the
    manager by [handle_subscribe]. *)
Definition notification_callback (char_uuid : string) (data : list Z)
  : M Handler unit :=
  send_message (Notification char_uuid (b64encode data)).

Definition handle_subscribe (message : BLESubscribeMessage) : M Handler unit :=
  try_except
    (call_manager "subscribe"
       (MSubscribe (subscribe_characteristic_uuid message))
       (subscribe (subscribe_characteristic_uuid message)) ;;;
     send_status true
       ("Subscribed to " +:+ subscribe_characteristic_uuid message))%py
    (fun e =>
       logger ERROR ("Subscribe failed: " +:+ exc_str e) ;;;
       send_error ("Subscribe failed: " +:+ exc_str e) None)%py.

Definition handle_unsubscribe (message : BLEUnsubscribeMessage) : M Handler unit :=
  try_except
    (call_manager "unsubscribe"
       (MUnsubscribe (unsubscribe_characteristic_uuid message))
       (unsubscribe (unsubscribe_characteristic_uuid message)) ;;;
     send_status true
       ("Unsubscribed from " +:+ unsubscribe_characteristic_uuid message))%py
    (fun e =>
       logger ERROR ("Unsubscribe failed: " +:+ exc_str e) ;;;
       send_error ("Unsubscribe failed: " +:+ exc_str e) None)%py.

Definition handle_discover (message : BLEDiscoverMessage) : M Handler unit :=
  try_except
    (devices <- call_manager "discover_devices"
                  (MDiscover (discover_service_uuid message)
                     (discover_timeout message))
                  (discover_devices (discover_service_uuid message)
                     (discover_timeout message)) ;;
     send_message (Discovered devices))%py
    (fun e =>
       logger ERROR ("Discovery failed: " +:+ exc_str e) ;;;
       send_error ("Discovery failed: " +:+ exc_str e) None)%py.

(** [**message]: the items of the decoded dict. *)
Definition items_of (message : Json) : list (string * Json) :=
  match message with JObject items => items | _ => [] end.

Definition handle_message (data : string) : M Handler unit :=
  try_except
    (message <- lift (json_loads data) ;;
     msg_type <- lift (get_type message) ;;
     if type_is msg_type CONNECT then
       m <- lift (BLEConnectMessage_init (items_of message)) ;; handle_connect m
     else if type_is msg_type DISCONNECT then
       m <- lift (BLEDisconnectMessage_init (items_of message)) ;; handle_disconnect m
     else if type_is msg_type WRITE then
       m <- lift (BLEWriteMessage_init (items_of message)) ;; handle_write m
     else if type_is msg_type SUBSCRIBE then
       m <- lift (BLESubscribeMessage_init (items_of message)) ;; handle_subscribe m
     else if type_is msg_type UNSUBSCRIBE then
       m <- lift (BLEUnsubscribeMessage_init (items_of message)) ;; handle_unsubscribe m
     else if type_is msg_type DISCOVER then
       m <- lift (BLEDiscoverMessage_init (items_of message)) ;; handle_discover m
     else
       send_error ("Unknown message type: " +:+ py_str msg_type) None)%py
    (fun e =>
       match exc_class e with
       | ValidationError => send_error ("Invalid message format: " +:+ exc_str e) None
       | JSONDecodeError => send_error ("Invalid JSON: " +:+ exc_str e) None
       | _ => raise e
       end).

(** [except Exception as e:] of the message loop. *)
Definition on_loop_exception (e : Exception) : M Handler unit :=
  (logger ERROR ("Error handling message: " +:+ exc_str e) ;;;
   send_error ("Error handling message: " +:+ exc_str e) None)%py.

(** One round of the [while self.running:] loop on what [receive_text]
    yielded; [WebSocketDisconnect] leaves the loop and is handled in
    [message_loop]. *)
Definition loop_round (x : Incoming) (h : Handler) : Handler :=
  match x with
  | Text data => snd (try_except (handle_message data) on_loop_exception h)
  | ReceiveError e => snd (on_loop_exception e h)
  | WebSocketDisconnect => record_log INFO "Client disconnected" h
  end.

(** The loop over what the socket delivers; a socket that has nothing
    more to deliver has been closed by the client. *)
Fixpoint message_loop (incoming : list Incoming) (h : Handler) : Handler :=
  if running h then
    match incoming with
    | [] => record_log INFO "Client disconnected" h
    | WebSocketDisconnect :: _ => loop_round WebSocketDisconnect h
    | x :: rest => message_loop rest (loop_round x h)
    end
  else h.

(** The [finally:] block of [handle]. *)
Definition cleanup (h : Handler) : Handler :=
  let h :=
    match ble_manager h with
    | Some m =>
        if is_connected m then
          snd (try_except
                 (call_manager "disconnect" MDisconnect disconnect)
                 (fun e => logger ERROR ("Error during cleanup: " +:+ exc_str e))
                 h)
        else h
    | None => h
    end in
  set_running false h.

Definition handle (incoming : list Incoming) : M Handler unit :=
  (modify (set_running true) ;;;
   try_finally
     (fun h =>
        match get_ble_manager with
        | Raise e =>
            match exc_class e with
            | BLENotAvailableError =>
                send_error ("BLE Proxy not available: " +:+ exc_str e +:+ ". "
                              +:+ "Install with: poetry install -E ble-proxy") None h
            | _ => (Raise e, h)
            end
        | Ok m =>
            (send_status false "BLE Proxy ready" ;;;
             modify (message_loop incoming))%py (set_ble_manager (Some m) h)
        end)
     cleanup)%py.

End Handler.

End BLEProxy.

(** ** app/schemas/ble.py *)

Module BleSchemas.

Import Base64 BLEProxy.

(** Modelled from the spec: [app.schemas.ble.BLEWriteMessage] is not among
    the sources.  On the wire a write command is
    [write{characteristicUuid,data(base64),withResponse}]; a frame with a
    missing or mistyped required field is SchemaInvalid, and so is one
    whose payload is not standard base64 text.  The class reports it by
    a [ValidationError] on the field. *)
Definition BLEWriteMessage_init (items : list (string * Json))
  : Result BLEWriteMessage :=
  match dict_get "characteristicUuid" items with
  | JString characteristic_uuid =>
      match dict_get "data" items with
      | JString data =>
          if is_standard_base64 data then
            match dict_get "withResponse" items with
            | JBool with_response =>
                Ok (mkWrite characteristic_uuid data with_response)
            | _ => Raise (mkExc ValidationError "withResponse")
            end
          else Raise (mkExc ValidationError "data")
      | _ => Raise (mkExc ValidationError "data")
      end
  | _ => Raise (mkExc ValidationError "characteristicUuid")
  end.

End BleSchemas.

(** ** Test doubles for the external collaborators *)

Module Fixtures.

Import Config ConnectionManager.

Definition MAC : string := "AA:BB:CC:DD:EE:FF".
Definition SERVICE : string := "8E60F02E-F699-4865-B83F-F40501752184".
Definition NOTIFY : string := "DC272A22-43F2-416B-8FA5-63A071542FAC".
Definition WRITE_UUID : string := "9280F26C-A56F-43EA-B769-D5D732E1AC67".

(** The text [aa-bb-cc-dd-ee-ff] followed by a line feed. *)
Definition MAC_WITH_LINE_FEED : string :=
  "aa-bb-cc-dd-ee-ff" +:+ String LF EmptyString.

(** A transport on which every call succeeds at once. *)
Definition reliable : list (APIClient * ApiCall) -> APIClient -> ApiCall -> Result unit :=
  fun _ _ _ => Ok tt.
Definition instant : list (APIClient * ApiCall) -> APIClient -> ApiCall -> option Z :=
  fun _ _ _ => Some 0%Z.

(** A transport that never answers a connect request. *)
Definition unreachable : list (APIClient * ApiCall) -> APIClient -> ApiCall -> option Z :=
  fun _ _ call =>
    match call with
    | bluetooth_device_connect _ => None
    | _ => Some 0%Z
    end.

(** A transport that connects but refuses the advertisement
    subscription. *)
Definition refuses_subscription
  : list (APIClient * ApiCall) -> APIClient -> ApiCall -> Result unit :=
  fun _ _ call =>
    match call with
    | subscribe_bluetooth_le_raw_advertisements _ =>
        Raise (mkExc (OtherError "APIConnectionError") "Not connected")
    | _ => Ok tt
    end.

(** A transport whose disconnect raises. *)
Definition refuses_disconnect
  : list (APIClient * ApiCall) -> APIClient -> ApiCall -> Result unit :=
  fun _ _ call =>
    match call with
    | bluetooth_device_disconnect _ =>
        Raise (mkExc (OtherError "APIConnectionError") "Not connected")
    | _ => Ok tt
    end.

Definition callbacks_return : Callback -> string -> list Z -> Result unit :=
  fun _ _ _ => Ok tt.

(** [connect_device("ws-1", MAC, "proxy-1", client 7, ..., callback 1)] *)
Definition connect_ws1 api_result api_latency (cb : option Callback) : M World unit :=
  connect_device default_settings api_result api_latency
    "ws-1" MAC "proxy-1" 7 SERVICE NOTIFY WRITE_UUID (Some "SFP Wizard") cb.

Definition CONNECTION_WS1 (cb : option Callback) : ActiveConnection :=
  mkActiveConnection MAC (Some "SFP Wizard") "proxy-1" 7 SERVICE NOTIFY
    WRITE_UUID cb.

Import BLEProxy.

(** A BLE manager whose state is the address of the device it is
    connected to, if any.  It accepts every call while connected. *)
Definition NOT_CONNECTED_TO_DEVICE : Exception :=
  mkExc RuntimeError "Not connected to device".

Definition when_connected (m : option string) : Result unit * option string :=
  match m with
  | Some _ => (Ok tt, m)
  | None => (Raise NOT_CONNECTED_TO_DEVICE, m)
  end.

#[export] Instance simple_manager : BLEManager (option string) := {
  is_connected m := match m with Some _ => true | None => false end;
  device_address m := m;
  connect _ _ _ := (Ok (mkDeviceInfo "SFP Wizard" MAC [SERVICE]), Some MAC);
  disconnect _ := (Ok tt, None);
  write _ _ _ m := when_connected m;
  subscribe _ m := when_connected m;
  unsubscribe _ m := when_connected m;
  discover_devices _ _ m := (Ok [], m)
}.

(** A socket that takes every frame, and one the client has left. *)
Definition socket_open : list Event -> Event -> Result unit := fun _ _ => Ok tt.
Definition socket_closed : list Event -> Event -> Result unit :=
  fun _ _ => Raise (mkExc RuntimeError "WebSocket is not connected").

Definition DQ : string := String (ascii_of_nat 34) EmptyString.

(** The frames [{not json], [[1, 2]], [{"type": "fly"}] and
    [{"type": "write"}]. *)
Definition FRAME_MALFORMED : string := "{not json".
Definition FRAME_ARRAY : string := "[1, 2]".
Definition FRAME_UNKNOWN : string :=
  "{" +:+ DQ +:+ "type" +:+ DQ +:+ ": " +:+ DQ +:+ "fly" +:+ DQ +:+ "}".
Definition FRAME_WRITE_NO_FIELDS : string :=
  "{" +:+ DQ +:+ "type" +:+ DQ +:+ ": " +:+ DQ +:+ "write" +:+ DQ +:+ "}".

(** [json.loads] on the frames above; every other text is taken to be
    malformed. *)
Definition json_loads_stub (data : string) : Result Json :=
  if String.eqb data FRAME_ARRAY then Ok (JArray [JInt 1; JInt 2])
  else if String.eqb data FRAME_UNKNOWN then Ok (JObject [("type", JString "fly")])
  else if String.eqb data FRAME_WRITE_NO_FIELDS then
    Ok (JObject [("type", JString "write")])
  else Raise (mkExc JSONDecodeError
                "Expecting property name enclosed in double quotes: line 1 column 2 (char 1)").

Definition py_str_stub (v : Json) : string :=
  match v with
  | JNull => "None"
  | JBool true => "True"
  | JBool false => "False"
  | JInt z => pretty z
  | JFloat literal => literal
  | JString s => s
  | JArray _ => "[...]"
  | JObject _ => "{...}"
  end.

(** Message classes with camel-case wire names and the required fields
    of the wire protocol. *)
Definition optional_str (v : Json) : Result (option string) :=
  match v with
  | JNull => Ok None
  | JString s => Ok (Some s)
  | _ => Raise (mkExc ValidationError "Input should be a valid string")
  end.

Definition connect_init_stub (items : list (string * Json)) : Result BLEConnectMessage :=
  match optional_str (dict_get "serviceUuid" items),
        optional_str (dict_get "deviceAddress" items) with
  | Ok s, Ok a => Ok (mkConnect s a)
  | Raise e, _ => Raise e
  | _, Raise e => Raise e
  end.

Definition disconnect_init_stub (items : list (string * Json)) : Result unit := Ok tt.

Definition write_init_stub (items : list (string * Json)) : Result BLEWriteMessage :=
  match dict_get "characteristicUuid" items, dict_get "data" items,
        dict_get "withResponse" items with
  | JString u, JString d, JBool b => Ok (mkWrite u d b)
  | _, _, _ => Raise (mkExc ValidationError "Field required")
  end.

Definition subscribe_init_stub (items : list (string * Json)) : Result BLESubscribeMessage :=
  match dict_get "characteristicUuid" items with
  | JString u => Ok (mkSubscribe u)
  | _ => Raise (mkExc ValidationError "Field required")
  end.

Definition unsubscribe_init_stub (items : list (string * Json))
  : Result BLEUnsubscribeMessage :=
  match dict_get "characteristicUuid" items with
  | JString u => Ok (mkUnsubscribe u)
  | _ => Raise (mkExc ValidationError "Field required")
  end.

Definition discover_init_stub (items : list (string * Json)) : Result BLEDiscoverMessage :=
  match optional_str (dict_get "serviceUuid" items), dict_get "timeout" items with
  | Ok s, JInt t => Ok (mkDiscover s t)
  | Raise e, _ => Raise e
  | _, _ => Raise (mkExc ValidationError "Input should be a valid integer")
  end.

(** A handler in its message loop, on [simple_manager] in state [m]. *)
Definition ready (m : option string) : Handler :=
  mkHandler (Some m) true [] [] [].

Definition loop_round_stub send_json : Incoming -> Handler -> Handler :=
  loop_round json_loads_stub py_str_stub connect_init_stub disconnect_init_stub
    write_init_stub subscribe_init_stub unsubscribe_init_stub discover_init_stub
    send_json.

(** The frame of a write command with the payload text [data], and what
    [json.loads] makes of it. *)
Definition quoted (s : string) : string := DQ +:+ s +:+ DQ.

Definition write_frame (data : string) : string :=
  "{" +:+ quoted "type" +:+ ": " +:+ quoted "write" +:+ ", "
    +:+ quoted "characteristicUuid" +:+ ": " +:+ quoted WRITE_UUID +:+ ", "
    +:+ quoted "data" +:+ ": " +:+ quoted data +:+ ", "
    +:+ quoted "withResponse" +:+ ": true}".

Definition write_object (data : string) : Json :=
  JObject [("type", JString "write");
           ("characteristicUuid", JString WRITE_UUID);
           ("data", JString data);
           ("withResponse", JBool true)].

(** [json.loads] that also knows the write frames with the payload texts
    [AQID] and [AQ!ID]. *)
Definition json_loads_write (data : string) : Result Json :=
  if String.eqb data (write_frame "AQID") then Ok (write_object "AQID")
  else if String.eqb data (write_frame "AQ!ID") then Ok (write_object "AQ!ID")
  else json_loads_stub data.

(** One round of the loop with the write messages checked by
    [BleSchemas.BLEWriteMessage_init]. *)
Definition loop_round_checked send_json : Incoming -> Handler -> Handler :=
  loop_round json_loads_write py_str_stub connect_init_stub disconnect_init_stub
    BleSchemas.BLEWriteMessage_init subscribe_init_stub unsubscribe_init_stub
    discover_init_stub send_json.

End Fixtures.

(** ** Vocabulary of the properties *)

Module Spec.

Import Config ConnectionManager.

(** The calls made on API clients when [connect_device] reaches its
    [try:] block: those made before, and the disconnect of the session's
    previous connection when it had one. *)
Definition history_at_connect (client_id : string) (w : World)
  : list (APIClient * ApiCall) :=
  match connections w !! client_id with
  | Some old =>
      api_calls w ++ [(client old, bluetooth_device_disconnect (mac_address old))]
  | None => api_calls w
  end.

(** The world in which the [try:] block of [connect_device] starts: the
    session's previous connection, if it had one, has been disconnected. *)
Definition before_attempt
           (api_result : list (APIClient * ApiCall) -> APIClient -> ApiCall -> Result unit)
           (client_id : string) (w : World) : World :=
  match connections w !! client_id with
  | Some _ => snd (disconnect_device api_result client_id w)
  | None => w
  end.

(** What [asyncio.wait_for(client.bluetooth_device_connect(mac), timeout)]
    yields after the calls [history]. *)
Definition connect_attempt (settings : Settings)
           (api_result : list (APIClient * ApiCall) -> APIClient -> ApiCall -> Result unit)
           (api_latency : list (APIClient * ApiCall) -> APIClient -> ApiCall -> option Z)
           (history : list (APIClient * ApiCall)) (c : APIClient) (mac : string)
  : Result unit :=
  if completes_within (esphome_connection_timeout settings)
       (api_latency history c (bluetooth_device_connect mac))
  then api_result history c (bluetooth_device_connect mac)
  else Raise (mkExc TimeoutError "").

(** The calls made on API clients from the [try:] block of
    [connect_device] on, when it ran from [w] to [w']. *)
Definition calls_of_attempt (client_id : string) (w w' : World)
  : list (APIClient * ApiCall) :=
  drop (length (history_at_connect client_id w)) (api_calls w').

(** The specification's sentence on error paths of connect: whenever
    connect fails although the device connection had been established,
    the transport disconnect is performed for it and no ActiveConnection
    is stored. *)
Definition failed_connect_releases_device : Prop :=
  forall settings api_result api_latency client_id mac proxy c svc ntf wr name cb w e,
    connect_attempt settings api_result api_latency
      (history_at_connect client_id w) c mac = Ok tt ->
    fst (connect_device settings api_result api_latency
           client_id mac proxy c svc ntf wr name cb w) = Raise e ->
    let w' := snd (connect_device settings api_result api_latency
                     client_id mac proxy c svc ntf wr name cb w) in
    In (c, bluetooth_device_disconnect mac) (calls_of_attempt client_id w w')
    /\ connections w' !! client_id = None.

End Spec.

(** ** Vocabulary of the properties of the session handler *)

Module ProxySpec.

Import BLEProxy.

Section Frames.

Context {T : Type} `{BLEManager T}.

Variable json_loads : string -> Result Json.
Variable py_str : Json -> string.
Variable BLEConnectMessage_init : list (string * Json) -> Result BLEConnectMessage.
Variable BLEDisconnectMessage_init : list (string * Json) -> Result unit.
Variable BLEWriteMessage_init : list (string * Json) -> Result BLEWriteMessage.
Variable BLESubscribeMessage_init : list (string * Json) -> Result BLESubscribeMessage.
Variable BLEUnsubscribeMessage_init : list (string * Json) -> Result BLEUnsubscribeMessage.
Variable BLEDiscoverMessage_init : list (string * Json) -> Result BLEDiscoverMessage.

(** The command tag a decoded [type] stands for. *)
Definition recognised (msg_type : Json) : option BLEMessageType :=
  if type_is msg_type CONNECT then Some CONNECT
  else if type_is msg_type DISCONNECT then Some DISCONNECT
  else if type_is msg_type WRITE then Some WRITE
  else if type_is msg_type SUBSCRIBE then Some SUBSCRIBE
  else if type_is msg_type UNSUBSCRIBE then Some UNSUBSCRIBE
  else if type_is msg_type DISCOVER then Some DISCOVER
  else None.

Definition outcome {A} (r : Result A) : Result unit :=
  match r with Ok _ => Ok tt | Raise e => Raise e end.

(** Whether the message class of a tag accepts the decoded items. *)
Definition validation (t : BLEMessageType) (items : list (string * Json))
  : Result unit :=
  match t with
  | CONNECT => outcome (BLEConnectMessage_init items)
  | DISCONNECT => outcome (BLEDisconnectMessage_init items)
  | WRITE => outcome (BLEWriteMessage_init items)
  | SUBSCRIBE => outcome (BLESubscribeMessage_init items)
  | UNSUBSCRIBE => outcome (BLEUnsubscribeMessage_init items)
  | DISCOVER => outcome (BLEDiscoverMessage_init items)
  end.

(** The text of the error event for an exception raised while a frame
    is decoded. *)
Definition decode_error_text (e : Exception) : string :=
  match exc_class e with
  | ValidationError => "Invalid message format: " +:+ exc_str e
  | JSONDecodeError => "Invalid JSON: " +:+ exc_str e
  | _ => "Error handling message: " +:+ exc_str e
  end.

(** A frame that does not decode to a command: malformed JSON, JSON
    that is not an object, an unrecognised or missing command tag, or
    items the message class of the tag rejects.  The result is the text
    of the error the frame is answered with; [None] for a frame that
    decodes. *)
Definition rejection (data : string) : option string :=
  match json_loads data with
  | Raise e => Some (decode_error_text e)
  | Ok message =>
      match get_type message with
      | Raise e => Some (decode_error_text e)
      | Ok msg_type =>
          match recognised msg_type with
          | None => Some ("Unknown message type: " +:+ py_str msg_type)
          | Some t =>
              match validation t (items_of message) with
              | Raise e => Some (decode_error_text e)
              | Ok _ => None
              end
          end
      end
  end.

(** The [device_name] that [send_status] reads off the manager. *)
Definition status_device_name (m : option T) : option string :=
  match m with
  | Some m => if is_connected m then device_address m else None
  | None => None
  end.

(** A status event agrees with the manager. *)
Definition status_agrees (m : option T) (ev : Event) : Prop :=
  match ev with
  | Status _ device_name _ => device_name = status_device_name m
  | _ => True
  end.

(** A command is answered by exactly one event, and a status event
    names the device as the manager has it once the command is done. *)
Definition answers_once (m : M (@Handler T) unit) : Prop :=
  forall h,
    fst (m h) = Ok tt
    /\ exists ev,
        sent (snd (m h)) = sent h ++ [ev]
        /\ status_agrees (ble_manager (snd (m h))) ev.

(** The same for one round of the loop, from [h] to [h']. *)
Definition answered (h h' : @Handler T) : Prop :=
  exists ev,
    sent h' = sent h ++ [ev] /\ status_agrees (ble_manager h') ev.

Variable send_json : list Event -> Event -> Result unit.

(** What one [send_message] does to a handler: the frame is passed to
    the socket, and [running] is cleared when the socket refuses it. *)
Record sends_one (ev : Event) (h h' : @Handler T) : Prop := {
  one_sent : sent h' = sent h ++ [ev];
  one_calls : manager_calls h' = manager_calls h;
  one_manager : ble_manager h' = ble_manager h;
  one_running :
    running h' = if is_ok (send_json (sent h) ev) then running h else false
}.


End Frames.

End ProxySpec.

(** ** Vocabulary of the further properties of the connection manager *)

Module RegistrySpec.

Import Config ConnectionManager.

(** The call by which [disconnect_device] releases a connection. *)
Definition disconnect_call (c : ActiveConnection) : APIClient * ApiCall :=
  (client c, bluetooth_device_disconnect (mac_address c)).

(** An operation that is addressed to a session other than [client_id]. *)
Definition addressed_elsewhere (client_id : string) (op : Op) : bool :=
  match op with
  | OpConnect cid _ _ _ _ _ _ _ _ => negb (String.eqb cid client_id)
  | OpDisconnect cid => negb (String.eqb cid client_id)
  | OpWrite cid _ _ _ => negb (String.eqb cid client_id)
  | OpDisconnectAll => false
  end.

(** Every connection of the registry is one the transport was asked to
    establish: the connect call for its device on its client is among the
    calls made. *)
Definition entries_were_connected (w : World) : Prop :=
  forall client_id c,
    connections w !! client_id = Some c ->
    In (client c, bluetooth_device_connect (mac_address c)) (api_calls w).

(** A transport whose connect raises, as when the device is unknown to
    the proxy. *)
Definition refuses_connect
  : list (APIClient * ApiCall) -> APIClient -> ApiCall -> Result unit :=
  fun _ _ call =>
    match call with
    | bluetooth_device_connect _ =>
        Raise (mkExc (OtherError "BluetoothConnectionDroppedError") "Device not found")
    | _ => Ok tt
    end.

End RegistrySpec.

(** ** Vocabulary of the further properties of the codec *)

Module CodecSpec.

Import Base64.

(** A Python byte. *)
Definition is_byte (x : Z) : bool := (0 <=? x)%Z && (x <? 256)%Z.

(** The integers from 0 up to [n], excluded. *)
Definition below (n : nat) : list Z := map Z.of_nat (seq 0 n).

(** The four sextets that [b64encode] makes of three bytes. *)
Definition sextet1 (a : Z) : Z := Z.shiftr a 2.
Definition sextet2 (a b : Z) : Z := Z.lor (Z.shiftl (Z.land a 3) 4) (Z.shiftr b 4).
Definition sextet3 (b c : Z) : Z := Z.lor (Z.shiftl (Z.land b 15) 2) (Z.shiftr c 6).
Definition sextet4 (c : Z) : Z := Z.land c 63.

(** What the codec needs of the character of a sextet: it is ASCII, of
    the alphabet, not the pad character, and has the sextet as value. *)
Definition char_round_trips (v : Z) : bool :=
  match b64_value (b64_char v) with
  | Some v' => (v' =? v)%Z
  | None => false
  end
  && negb (Ascii.eqb (b64_char v) "=")
  && is_ascii (b64_char v).

Definition is_sextet (v : Z) : bool := (0 <=? v)%Z && (v <? 64)%Z.

(** What the decoder needs of the sextets of the bytes [a], [b]: they are
    sextets, and the shifts and masks of the decoder undo those of the
    encoder. *)
Definition sextets_round_trip (a b : Z) : bool :=
  is_sextet (sextet1 a) && is_sextet (sextet2 a b) && is_sextet (sextet3 a b)
  && is_sextet (sextet4 a)
  && is_sextet (Z.shiftl (Z.land a 3) 4) && is_sextet (Z.shiftl (Z.land a 15) 2)
  && (u8 (Z.lor (Z.shiftl (sextet1 a) 2) (Z.shiftr (sextet2 a b) 4)) =? a)%Z
  && (Z.land (sextet2 a b) 15 =? Z.shiftr b 4)%Z
  && (Z.shiftr (sextet3 a b) 2 =? Z.land a 15)%Z
  && (Z.land (sextet3 a b) 3 =? Z.shiftr b 6)%Z
  && (u8 (Z.lor (Z.shiftl (Z.shiftr a 4) 4) (Z.land a 15)) =? a)%Z
  && (u8 (Z.lor (Z.shiftl (Z.shiftr a 6) 6) (sextet4 a)) =? a)%Z
  && (u8 (Z.lor (Z.shiftl (sextet1 a) 2) (Z.shiftr (Z.shiftl (Z.land a 3) 4) 4)) =? a)%Z
  && (Z.shiftr (Z.shiftl (Z.land a 15) 2) 2 =? Z.land a 15)%Z
  && (Z.land (Z.shiftl (Z.land a 3) 4) 15 =? 0)%Z.



End CodecSpec.

(** ** Vocabulary of the further properties of the session handler *)

Module SessionSpec.

Import BLEProxy.

Section Rounds.

Context {T : Type} `{BLEManager T}.

Variable send_json : list Event -> Event -> Result unit.

(** What handling one frame does, from [h] to [h']: one event is passed to
    the socket, the manager is called at most once, and [running] is
    cleared exactly when the socket refuses the event. *)
Definition one_answer (h h' : @Handler T) : Prop :=
  exists ev,
    sent h' = sent h ++ [ev]
    /\ running h' = (if is_ok (send_json (sent h) ev) then running h else false)
    /\ (manager_calls h' = manager_calls h
        \/ exists c, manager_calls h' = manager_calls h ++ [c]).

Definition answers_with_one (m : M (@Handler T) unit) : Prop :=
  forall h, fst (m h) = Ok tt /\ one_answer h (snd (m h)).

(** The command a call on the manager belongs to. *)
Definition call_kind (c : ManagerCall) : BLEMessageType :=
  match c with
  | MConnect _ _ => CONNECT
  | MDisconnect => DISCONNECT
  | MWrite _ _ _ => WRITE
  | MSubscribe _ => SUBSCRIBE
  | MUnsubscribe _ => UNSUBSCRIBE
  | MDiscover _ _ => DISCOVER
  end.

(** From [h] to [h'] the manager was not called, or called once with the
    operation of the command [t]. *)
Definition calls_only (t : BLEMessageType) (h h' : @Handler T) : Prop :=
  manager_calls h' = manager_calls h
  \/ exists c, manager_calls h' = manager_calls h ++ [c] /\ call_kind c = t.

(** Frames that are not the end of the connection. *)
Definition is_frame (x : Incoming) : bool :=
  match x with WebSocketDisconnect => false | _ => true end.

End Rounds.

Import Fixtures.

(** The loop and the whole session on the test doubles. *)
Definition message_loop_stub send_json : list Incoming -> Handler -> Handler :=
  message_loop json_loads_stub py_str_stub connect_init_stub disconnect_init_stub
    write_init_stub subscribe_init_stub unsubscribe_init_stub discover_init_stub
    send_json.

Definition handle_stub send_json (get_ble_manager : Result (option string))
  : list Incoming -> M Handler unit :=
  handle json_loads_stub py_str_stub connect_init_stub disconnect_init_stub
    write_init_stub subscribe_init_stub unsubscribe_init_stub discover_init_stub
    send_json get_ble_manager.

(** The exception of [get_ble_manager] when bleak is not installed. *)
Definition BLE_NOT_AVAILABLE : Exception :=
  mkExc BLENotAvailableError "bleak is not installed".

End SessionSpec.

(** *** Properties of the MAC validator *)

Module SchemasFacts.

Import Re Schemas Fixtures.

Example normalize_hyphen_lowercase :
  validate_mac_address "aa-bb-cc-dd-ee-ff" = Ok "AA:BB:CC:DD:EE:FF".
Proof. reflexivity. Qed.

Example reject_non_hex :
  validate_mac_address "zz:11:22:33:44:55" = Raise INVALID_MAC.
Proof. reflexivity. Qed.

(** C8 fails on the code.  The two examples of the claim hold, but an
    address followed by a line feed is not rejected: [$] also matches
    just before a final line feed, so the validator returns a text of
    eighteen characters that is not in canonical form. *)
Theorem trailing_line_feed_is_accepted :
  validate_mac_address "aa-bb-cc-dd-ee-ff" = Ok "AA:BB:CC:DD:EE:FF"
  /\ validate_mac_address "zz:11:22:33:44:55" = Raise INVALID_MAC
  /\ validate_mac_address MAC_WITH_LINE_FEED
     = Ok ("AA:BB:CC:DD:EE:FF" +:+ String LF EmptyString)
  /\ is_canonical_mac (normalize_mac MAC_WITH_LINE_FEED) = false.
Proof. repeat split; reflexivity. Qed.

Lemma run_pair pos s k :
  run (Rep 2 (Cls hex_upper)) pos s k =
    match s with
    | a :: b :: s' => hex_upper a && hex_upper b && k (S (S pos)) s'
    | _ => false
    end.
Proof.
  destruct s as [|a [|b s']]; cbn.
  - reflexivity.
  - apply andb_false_r.
  - apply andb_assoc.
Qed.

Lemma run_group pos s k :
  run (Cat (Rep 2 (Cls hex_upper)) (Lit ":")) pos s k =
    match s with
    | a :: b :: c :: s' =>
        hex_upper a && hex_upper b && Ascii.eqb c ":" && k (S (S (S pos))) s'
    | _ => false
    end.
Proof.
  change (run (Cat (Rep 2 (Cls hex_upper)) (Lit ":")) pos s k)
    with (run (Rep 2 (Cls hex_upper)) pos s (fun p s' => run (Lit ":") p s' k)).
  rewrite run_pair. destruct s as [|a [|b [|c s']]]; cbn; try reflexivity.
  - apply andb_false_r.
  - rewrite !andb_assoc. reflexivity.
Qed.

Lemma run_groups n pos s k rest :
  (forall p s', k p s' = rest s') ->
  run (Rep n (Cat (Rep 2 (Cls hex_upper)) (Lit ":"))) pos s k = groups_then n s rest.
Proof.
  intros Hk. revert pos s. induction n as [|n IH]; intros pos s.
  - cbn. apply Hk.
  - change (run (Rep (S n) (Cat (Rep 2 (Cls hex_upper)) (Lit ":"))) pos s k)
      with (run (Cat (Rep 2 (Cls hex_upper)) (Lit ":")) pos s
              (fun p s' => run (Rep n (Cat (Rep 2 (Cls hex_upper)) (Lit ":"))) p s' k)).
    rewrite run_group. destruct s as [|a [|b [|c s']]]; cbn [groups_then];
      try reflexivity.
    cbn beta. rewrite IH. reflexivity.
Qed.

(** What [re.match] with the pattern accepts. *)
Lemma re_match_mac_pattern s :
  re_match MAC_PATTERN s =
    groups_then 5 (list_ascii_of_string s) (pair_then at_eol).
Proof.
  unfold re_match, MAC_PATTERN.
  change (run (Cat Bol ?r) 0 ?l ?k) with (run r 0 l k).
  change (run (Cat ?r1 ?r2) 0 ?l ?k) with (run r1 0 l (fun p s' => run r2 p s' k)).
  apply run_groups. intros p s'.
  change (run (Cat ?r1 ?r2) p s' ?k) with (run r1 p s' (fun p s'' => run r2 p s'' k)).
  rewrite run_pair. unfold pair_then.
  destruct s' as [|a [|b s']]; try reflexivity.
  cbn. rewrite andb_true_r. reflexivity.
Qed.

Lemma canonical_from_groups n s :
  canonical_from (S n) s = groups_then n s (pair_then is_nil).
Proof.
  revert s. induction n as [|n IH]; intros s.
  - cbn. destruct s as [|a [|b [|c s']]]; cbn; try reflexivity.
    + rewrite andb_true_r. reflexivity.
    + rewrite !andb_false_r. reflexivity.
  - change (canonical_from (S (S n)) s)
      with (match s with
            | a :: b :: c :: s' =>
                hex_upper a && hex_upper b && Ascii.eqb c ":" && canonical_from (S n) s'
            | _ => false
            end).
    destruct s as [|a [|b [|c s']]]; cbn [groups_then]; try reflexivity.
    rewrite IH. reflexivity.
Qed.

Lemma at_eol_cases s :
  at_eol s = true <-> s = [] \/ s = [LF].
Proof.
  destruct s as [|c [|d s']]; cbn; split; intros Hs; auto.
  - right. apply Ascii.eqb_eq in Hs. subst c. reflexivity.
  - destruct Hs as [Hs | Hs]; [discriminate|]. inversion Hs. apply Ascii.eqb_refl.
  - discriminate.
  - destruct Hs as [Hs | Hs]; discriminate.
Qed.

Lemma groups_then_eol n s :
  groups_then n s (pair_then at_eol) = true <->
  groups_then n s (pair_then is_nil) = true
  \/ exists c, s = c ++ [LF] /\ groups_then n c (pair_then is_nil) = true.
Proof.
  revert s. induction n as [|n IH]; intros s.
  - cbn. destruct s as [|a [|b s']]; cbn.
    + split; [discriminate|]. intros [Hs | (c & Hs & Hc)]; [discriminate|].
      destruct c as [|? [|? ?]]; cbn in Hc; discriminate.
    + split; [discriminate|]. intros [Hs | (c & Hs & Hc)]; [discriminate|].
      destruct c as [|? [|? ?]]; cbn in Hc; discriminate.
    + split.
      * intros Hs. apply andb_true_iff in Hs as [Hab Heol].
        apply at_eol_cases in Heol as [-> | ->].
        -- left. rewrite Hab. reflexivity.
        -- right. exists [a; b]. split; [reflexivity|]. cbn. rewrite Hab. reflexivity.
      * intros [Hs | (c & Hs & Hc)].
        -- apply andb_true_iff in Hs as [Hab Hnil].
           destruct s'; [|discriminate]. rewrite Hab. reflexivity.
        -- destruct c as [|x [|y c']]; cbn in Hc; try discriminate.
           apply andb_true_iff in Hc as [Hab Hnil].
           destruct c'; [|discriminate]. cbn in Hs. inversion Hs; subst.
           rewrite Hab. reflexivity.
  - cbn [groups_then]. destruct s as [|a [|b [|c s']]].
    + split; [discriminate|]. intros [Hs | (l & Hs & Hl)]; [discriminate|].
      destruct l as [|? [|? [|? ?]]]; cbn in Hl; discriminate.
    + split; [discriminate|]. intros [Hs | (l & Hs & Hl)]; [discriminate|].
      destruct l as [|? [|? [|? ?]]]; cbn in Hs, Hl; try discriminate.
    + split; [discriminate|]. intros [Hs | (l & Hs & Hl)]; [discriminate|].
      destruct l as [|? [|? [|? ?]]]; cbn in Hs, Hl; try discriminate.
    + split.
      * intros Hs. apply andb_true_iff in Hs as [Habc Hrest].
        apply IH in Hrest as [Hrest | (l & -> & Hl)].
        -- left. rewrite Habc, Hrest. reflexivity.
        -- right. exists (a :: b :: c :: l). split; [reflexivity|].
           cbn [groups_then]. rewrite Habc, Hl. reflexivity.
      * intros [Hs | (l & Hs & Hl)].
        -- apply andb_true_iff in Hs as [Habc Hrest]. rewrite Habc. cbn.
           apply IH. left. exact Hrest.
        -- destruct l as [|x [|y [|z l']]]; cbn [groups_then] in Hl; try discriminate.
           apply andb_true_iff in Hl as [Habc Hrest].
           cbn in Hs. inversion Hs; subst. rewrite Habc. cbn.
           apply IH. right. exists l'. split; [reflexivity | exact Hrest].
Qed.

(** The validator accepts exactly the texts whose normal form is a
    canonical address, or a canonical address followed by one line feed,
    and returns the normal form. *)
Theorem validate_mac_address_accepts v v' :
  validate_mac_address v = Ok v' <->
  v' = normalize_mac v
  /\ (is_canonical_mac v' = true
      \/ exists c,
          list_ascii_of_string v' = list_ascii_of_string c ++ [LF]
          /\ is_canonical_mac c = true).
Proof.
  unfold validate_mac_address, is_canonical_mac.
  rewrite re_match_mac_pattern.
  destruct (groups_then 5 (list_ascii_of_string (normalize_mac v)) (pair_then at_eol))
    eqn:Hm; cbn [negb].
  - apply groups_then_eol in Hm. split.
    + intros Hv. inversion Hv; subst v'. split; [reflexivity|].
      destruct Hm as [Hm | (c & Hs & Hc)].
      * left. rewrite canonical_from_groups. exact Hm.
      * right. exists (string_of_list_ascii c).
        rewrite list_ascii_of_string_of_list_ascii, canonical_from_groups.
        split; assumption.
    + intros [-> _]. reflexivity.
  - split; [discriminate|]. intros [-> Hc]. exfalso.
    assert (groups_then 5 (list_ascii_of_string (normalize_mac v)) (pair_then at_eol)
            = true) as Habs; [|congruence].
    apply groups_then_eol. destruct Hc as [Hc | (c & Hs & Hc)].
    + left. rewrite <- canonical_from_groups. exact Hc.
    + right. exists (list_ascii_of_string c).
      rewrite <- canonical_from_groups. split; assumption.
Qed.

End SchemasFacts.

(** *** Properties of the base64 decoder *)

Module Base64Facts.

Import Base64.

Example decode_AQID : b64decode "AQID" = Ok [1; 2; 3]%Z.
Proof. reflexivity. Qed.

Example decode_foreign_character : b64decode "AQ!ID" = Ok [1; 2; 3]%Z.
Proof. reflexivity. Qed.

Example decode_incomplete_quad : b64decode "AQI" = Raise incorrect_padding.
Proof. reflexivity. Qed.




End Base64Facts.


(** *** Properties of the connection manager *)

Module ConnectionManagerFacts.

Import Config ConnectionManager Spec.

(** Unfolding the monad to the functions on worlds it stands for. *)
Ltac run_py :=
  unfold bind, get, modify, ret, raise, try_except, try_finally, logger,
    await, wait_for in *;
  cbn beta iota zeta in *.

Section Registry.

(** The registry holds a session's connections under one key. *)
Lemma filter_key_absent {A} (l : list (string * A)) (k : string) :
  (forall v, (k, v) ∉ l) -> filter (fun kv => fst kv = k) l = [].
Proof.
  induction l as [|[k' v'] l IH]; intros Habs; [reflexivity|].
  rewrite filter_cons_False.
  - apply IH. intros v Hin. apply (Habs v). right. exact Hin.
  - cbn. intros ->. apply (Habs v'). left.
Qed.

Lemma filter_key_elem {A} (l : list (string * A)) (k : string) (v : A) :
  NoDup (map fst l) -> (k, v) ∈ l ->
  filter (fun kv => fst kv = k) l = [(k, v)].
Proof.
  induction l as [|[k' v'] l IH]; intros Hnd Hin.
  - inversion Hin.
  - inversion Hnd as [|? ? Hnotin Hnd']; subst.
    apply elem_of_cons in Hin as [Heq | Hin].
    + inversion Heq; subst k' v'.
      rewrite filter_cons_True by reflexivity.
      f_equal. apply filter_key_absent.
      intros v2 Hin2. apply Hnotin.
      apply (list_elem_of_fmap_2 fst _ _ Hin2).
    + assert (k' <> k) as Hne.
      { intros ->. apply Hnotin. apply (list_elem_of_fmap_2 fst _ _ Hin). }
      rewrite filter_cons_False by (cbn; congruence).
      apply IH; assumption.
Qed.

Lemma active_connections_lookup (client_id : string) (w : World) :
  active_connections client_id w =
    match connections w !! client_id with
    | Some c => [c]
    | None => []
    end.
Proof.
  unfold active_connections.
  destruct (connections w !! client_id) as [c|] eqn:Hc.
  - rewrite (filter_key_elem _ client_id c).
    + reflexivity.
    + apply NoDup_fst_map_to_list.
    + apply elem_of_map_to_list. exact Hc.
  - rewrite filter_key_absent; [reflexivity|].
    intros v Hin. apply elem_of_map_to_list in Hin. congruence.
Qed.

End Registry.

Section Manager.

Variable settings : Settings.
Variable api_result : list (APIClient * ApiCall) -> APIClient -> ApiCall -> Result unit.
Variable api_latency : list (APIClient * ApiCall) -> APIClient -> ApiCall -> option Z.

#[local] Abbreviation disconnect_device := (disconnect_device api_result).
#[local] Abbreviation connect_device := (connect_device settings api_result api_latency).
#[local] Abbreviation write_characteristic := (write_characteristic api_result).
#[local] Abbreviation disconnect_all := (disconnect_all api_result).

(** **** disconnect_device *)

Lemma disconnect_device_absent client_id w :
  connections w !! client_id = None ->
  disconnect_device client_id w =
    (Ok tt, record_log WARNING ("No active connection for client " +:+ client_id) w).
Proof. intros Hc. unfold ConnectionManager.disconnect_device. run_py. rewrite Hc. reflexivity. Qed.

Lemma disconnect_device_present client_id w c :
  connections w !! client_id = Some c ->
  let w' := snd (disconnect_device client_id w) in
  fst (disconnect_device client_id w) = Ok tt
  /\ connections w' = delete client_id (connections w)
  /\ api_calls w' =
       api_calls w ++ [(client c, bluetooth_device_disconnect (mac_address c))]
  /\ callback_calls w' = callback_calls w
  /\ (forall e,
        api_result (api_calls w) (client c)
          (bluetooth_device_disconnect (mac_address c)) = Raise e ->
        log w' = log w ++ [(INFO, "Disconnecting device " +:+ mac_address c
                                    +:+ " for client " +:+ client_id);
                           (WARNING, "Error disconnecting device: " +:+ exc_str e)]).
Proof.
  intros Hc. unfold ConnectionManager.disconnect_device. run_py. rewrite Hc.
  destruct (notification_callback c) as [cb|]; cbn;
    destruct (api_result (api_calls w) (client c)
                (bluetooth_device_disconnect (mac_address c))) as [[]|e] eqn:Hr;
    cbn; rewrite ?delete_alter_eq; repeat split; try reflexivity;
    intros e' He'; try discriminate; inversion He'; subst;
    rewrite <- app_assoc; reflexivity.
Qed.

(** **** connect_device *)

(** The three ways through [connect_device]: the connect attempt fails,
    the subscription fails, or the connection is stored. *)
Lemma connect_device_cases client_id mac proxy c svc ntf wr name cb w :
  let h0 := history_at_connect client_id w in
  let new := mkActiveConnection mac name proxy c svc ntf wr cb in
  let r := fst (connect_device client_id mac proxy c svc ntf wr name cb w) in
  let w' := snd (connect_device client_id mac proxy c svc ntf wr name cb w) in
  callback_calls w' = callback_calls w /\
  match connect_attempt settings api_result api_latency h0 c mac with
  | Raise e =>
      r = Raise (if is_timeout e then CONNECTION_TIMEOUT
                 else mkExc RuntimeError ("Connection failed: " +:+ exc_str e))
      /\ connections w' = delete client_id (connections w)
      /\ api_calls w' = h0 ++ [(c, bluetooth_device_connect mac)]
  | Ok _ =>
      match cb with
      | None =>
          r = Ok tt
          /\ connections w' = <[client_id := new]> (connections w)
          /\ api_calls w' = h0 ++ [(c, bluetooth_device_connect mac)]
      | Some callback =>
          let sub := subscribe_bluetooth_le_raw_advertisements
                       (mkClosure mac ntf callback) in
          match api_result (h0 ++ [(c, bluetooth_device_connect mac)]) c sub with
          | Ok _ =>
              r = Ok tt
              /\ connections w' = <[client_id := new]> (connections w)
              /\ api_calls w' = h0 ++ [(c, bluetooth_device_connect mac); (c, sub)]
          | Raise e =>
              r = Raise (mkExc RuntimeError
                           ("Connection failed: Subscription failed: " +:+ exc_str e))
              /\ connections w' = delete client_id (connections w)
              /\ api_calls w' = h0 ++ [(c, bluetooth_device_connect mac); (c, sub)]
          end
      end
  end.
Proof.
  cbv zeta.
  unfold ConnectionManager.connect_device, connect_attempt, history_at_connect,
    _subscribe_notifications.
  assert (exists w0, (match connections w !! client_id with
                      | Some _ => disconnect_device client_id
                      | None => ret tt
                      end) w = (Ok tt, w0)
                     /\ connections w0 = delete client_id (connections w)
                     /\ callback_calls w0 = callback_calls w
                     /\ api_calls w0 =
                          match connections w !! client_id with
                          | Some old =>
                              api_calls w ++
                                [(client old,
                                  bluetooth_device_disconnect (mac_address old))]
                          | None => api_calls w
                          end) as (w0 & Hpre & Hconn & Hcb & Hcalls).
  { destruct (connections w !! client_id) as [old|] eqn:Hold.
    - destruct (disconnect_device_present client_id w old Hold)
        as (Hr & Hd & Hc & Hk & _).
      exists (snd (disconnect_device client_id w)).
      repeat split; try assumption.
      destruct (disconnect_device client_id w); cbn in *; congruence.
    - exists w. repeat split; try reflexivity.
      symmetry. apply delete_id. exact Hold. }
  run_py. rewrite Hpre. cbn. rewrite <- Hcalls.
  destruct (completes_within _ _);
    [destruct (api_result (api_calls w0) c (bluetooth_device_connect mac))
       as [[]|e] eqn:Hr|]; cbn.
  - destruct cb as [callback|]; cbn.
    + destruct (api_result (api_calls w0 ++ [(c, bluetooth_device_connect mac)]) c _)
        as [[]|e] eqn:Hs; cbn;
        rewrite ?Hconn, ?insert_delete_eq, <- ?app_assoc; cbn; auto.
    + rewrite ?Hconn, ?insert_delete_eq; auto.
  - destruct (is_timeout e); cbn; auto.
  - auto.
Qed.

(** **** write_characteristic *)

Lemma write_characteristic_present client_id uuid data resp w c :
  connections w !! client_id = Some c ->
  let w' := snd (write_characteristic client_id uuid data resp w) in
  connections w' = connections w
  /\ api_calls w' =
       api_calls w ++ [(client c, bluetooth_gatt_write (mac_address c) 0 data resp)]
  /\ fst (write_characteristic client_id uuid data resp w) =
       match api_result (api_calls w) (client c)
               (bluetooth_gatt_write (mac_address c) 0 data resp) with
       | Ok _ => Ok tt
       | Raise e => Raise (mkExc RuntimeError ("Write failed: " +:+ exc_str e))
       end.
Proof.
  intros Hc. unfold ConnectionManager.write_characteristic. run_py. rewrite Hc.
  destruct (negb _); cbn;
    destruct (api_result (api_calls w) (client c) _) as [[]|e]; cbn; auto.
Qed.

(** C4.  A write for a session that has no ActiveConnection raises the
    not-connected error before anything else happens: the world, and so
    the list of calls made on the transport, is left as it was. *)
Theorem write_without_connection client_id uuid data resp w :
  connections w !! client_id = None ->
  write_characteristic client_id uuid data resp w = (Raise NOT_CONNECTED, w)
  /\ api_calls (snd (write_characteristic client_id uuid data resp w)) = api_calls w.
Proof.
  intros Hc. unfold ConnectionManager.write_characteristic. run_py.
  rewrite Hc. split; reflexivity.
Qed.

(** C6.  [disconnect_device] always returns normally and leaves no entry
    for the session: without a connection it touches neither the
    registry nor the transport; with one, the entry is deleted whatever
    the transport's disconnect did, and an exception of that call ends
    up in a warning of the log. *)
Theorem disconnect_always_clears_entry client_id w :
  let r := fst (disconnect_device client_id w) in
  let w' := snd (disconnect_device client_id w) in
  r = Ok tt
  /\ connections w' !! client_id = None
  /\ connections w' = delete client_id (connections w)
  /\ (connections w !! client_id = None ->
      connections w' = connections w /\ api_calls w' = api_calls w)
  /\ (forall c e,
        connections w !! client_id = Some c ->
        api_result (api_calls w) (client c)
          (bluetooth_device_disconnect (mac_address c)) = Raise e ->
        In (WARNING, "Error disconnecting device: " +:+ exc_str e) (log w')).
Proof.
  cbv zeta. destruct (connections w !! client_id) as [c|] eqn:Hc.
  - destruct (disconnect_device_present client_id w c Hc)
      as (Hr & Hd & Hcalls & _ & Hlog).
    repeat split.
    + exact Hr.
    + rewrite Hd. apply lookup_delete_eq.
    + exact Hd.
    + discriminate.
    + discriminate.
    + intros c' e Hc' He. inversion Hc'; subst c'.
      rewrite (Hlog e He). apply in_or_app. right. right. left. reflexivity.
  - rewrite (disconnect_device_absent client_id w Hc). cbn.
    repeat split; auto.
    + symmetry. apply delete_id. exact Hc.
    + intros c e Hc'. discriminate.
Qed.

(** C5.  When the transport does not complete the device connection
    within [esphome_connection_timeout], [connect_device] raises the
    connection-timeout error and stores nothing: the session has no
    entry afterwards, and the error path leaves the registry as the
    [try:] block found it, that is, as it was once the session's previous
    connection had been disconnected; a session that had no connection
    sees the registry unchanged. *)
Theorem connect_timeout_stores_nothing client_id mac proxy c svc ntf wr name cb w :
  completes_within (esphome_connection_timeout settings)
    (api_latency (history_at_connect client_id w) c
       (bluetooth_device_connect mac)) = false ->
  let r := fst (connect_device client_id mac proxy c svc ntf wr name cb w) in
  let w' := snd (connect_device client_id mac proxy c svc ntf wr name cb w) in
  r = Raise CONNECTION_TIMEOUT
  /\ connections w' !! client_id = None
  /\ connections w' = connections (before_attempt api_result client_id w)
  /\ connections w' = delete client_id (connections w)
  /\ (connections w !! client_id = None -> connections w' = connections w).
Proof.
  intros Hlate. cbv zeta.
  destruct (connect_device_cases client_id mac proxy c svc ntf wr name cb w)
    as [_ Hcases].
  cbv zeta in Hcases. unfold connect_attempt in Hcases.
  rewrite Hlate in Hcases. destruct Hcases as (Hr & Hconn & _).
  repeat split.
  - exact Hr.
  - rewrite Hconn. apply lookup_delete_eq.
  - rewrite Hconn. unfold before_attempt.
    destruct (connections w !! client_id) as [old|] eqn:Hold.
    + destruct (disconnect_device_present client_id w old Hold) as (_ & Hd & _).
      symmetry. exact Hd.
    + apply delete_id. exact Hold.
  - exact Hconn.
  - intros Hnone. rewrite Hconn. apply delete_id. exact Hnone.
Qed.

(** C7 (as amended).  A connect attempt that fails stores no
    ActiveConnection for the session, also when the device connection
    had already been established; that happens only when installing the
    notification subscription fails, and is reported as a failed
    connection. *)
Theorem failed_connect_stores_nothing client_id mac proxy c svc ntf wr name cb w e :
  fst (connect_device client_id mac proxy c svc ntf wr name cb w) = Raise e ->
  let w' := snd (connect_device client_id mac proxy c svc ntf wr name cb w) in
  connections w' !! client_id = None
  /\ connections w' = delete client_id (connections w)
  /\ (connect_attempt settings api_result api_latency
        (history_at_connect client_id w) c mac = Ok tt ->
      exists callback cause,
        cb = Some callback
        /\ api_result (history_at_connect client_id w
                         ++ [(c, bluetooth_device_connect mac)]) c
             (subscribe_bluetooth_le_raw_advertisements
                (mkClosure mac ntf callback)) = Raise cause
        /\ e = mkExc RuntimeError
                 ("Connection failed: Subscription failed: " +:+ exc_str cause)).
Proof.
  intros Hfail. cbv zeta.
  destruct (connect_device_cases client_id mac proxy c svc ntf wr name cb w)
    as [_ Hcases].
  cbv zeta in Hcases.
  destruct (connect_attempt settings api_result api_latency
              (history_at_connect client_id w) c mac) as [[]|e0] eqn:Hattempt.
  - destruct cb as [callback|].
    + destruct (api_result _ c _) as [[]|cause] eqn:Hsub.
      * destruct Hcases as (Hr & _). congruence.
      * destruct Hcases as (Hr & Hconn & _).
        rewrite Hconn. repeat split; [apply lookup_delete_eq|].
        intros _. exists callback, cause. repeat split; congruence.
    + destruct Hcases as (Hr & _). congruence.
  - destruct Hcases as (Hr & Hconn & _).
    rewrite Hconn. repeat split; [apply lookup_delete_eq|]. discriminate.
Qed.

(** C1.  The registry holds at most one ActiveConnection per session, in
    every world and so after whatever operations were issued.  A connect for a session that has
    a connection first disconnects it (the disconnect call precedes the
    connect call on the transport) and leaves the other sessions alone;
    it ends with exactly the new connection when it returns and with
    none when it raises.  So two successive connects that return leave
    exactly one ActiveConnection, the second. *)
Theorem one_connection_per_session :
  (forall w client_id, length (active_connections client_id w) <= 1)
  /\ (forall ops w client_id,
         length (active_connections client_id
                   (run_ops settings api_result api_latency ops w)) <= 1)
  /\ (forall client_id mac proxy c svc ntf wr name cb w,
         let r := fst (connect_device client_id mac proxy c svc ntf wr name cb w) in
         let w' := snd (connect_device client_id mac proxy c svc ntf wr name cb w) in
         (forall old,
             connections w !! client_id = Some old ->
             exists rest,
               api_calls w' =
                 api_calls w
                   ++ (client old, bluetooth_device_disconnect (mac_address old))
                   :: (c, bluetooth_device_connect mac) :: rest)
         /\ (r = Ok tt ->
             active_connections client_id w' =
               [mkActiveConnection mac name proxy c svc ntf wr cb])
         /\ (forall e, r = Raise e -> active_connections client_id w' = [])
         /\ (forall other,
                other <> client_id ->
                connections w' !! other = connections w !! other))
  /\ (forall client_id mac1 proxy1 c1 svc1 ntf1 wr1 name1 cb1
             mac2 proxy2 c2 svc2 ntf2 wr2 name2 cb2 w,
         let first := connect_device client_id mac1 proxy1 c1 svc1 ntf1 wr1 name1 cb1 w in
         let second :=
           connect_device client_id mac2 proxy2 c2 svc2 ntf2 wr2 name2 cb2 (snd first) in
         fst first = Ok tt ->
         fst second = Ok tt ->
         active_connections client_id (snd second) =
           [mkActiveConnection mac2 name2 proxy2 c2 svc2 ntf2 wr2 cb2]
         /\ exists rest,
             api_calls (snd second) =
               api_calls (snd first)
                 ++ (c1, bluetooth_device_disconnect mac1)
                 :: (c2, bluetooth_device_connect mac2) :: rest).
Proof.
  assert (forall client_id mac proxy c svc ntf wr name cb w,
             let r := fst (connect_device client_id mac proxy c svc ntf wr name cb w) in
             let w' := snd (connect_device client_id mac proxy c svc ntf wr name cb w) in
             (forall old,
                 connections w !! client_id = Some old ->
                 exists rest,
                   api_calls w' =
                     api_calls w
                       ++ (client old, bluetooth_device_disconnect (mac_address old))
                       :: (c, bluetooth_device_connect mac) :: rest)
             /\ (r = Ok tt ->
                 active_connections client_id w' =
                   [mkActiveConnection mac name proxy c svc ntf wr cb])
             /\ (forall e, r = Raise e -> active_connections client_id w' = [])
             /\ (forall other,
                    other <> client_id ->
                    connections w' !! other = connections w !! other)) as Hconnect.
  { intros client_id mac proxy c svc ntf wr name cb w. cbv zeta.
    destruct (connect_device_cases client_id mac proxy c svc ntf wr name cb w)
      as [_ Hcases].
    cbv zeta in Hcases. rewrite !active_connections_lookup.
    assert (forall old, connections w !! client_id = Some old ->
                        history_at_connect client_id w =
                          api_calls w ++
                            [(client old, bluetooth_device_disconnect (mac_address old))])
      as Hhist.
    { intros old Hold. unfold history_at_connect. rewrite Hold. reflexivity. }
    destruct (connect_attempt settings api_result api_latency
                (history_at_connect client_id w) c mac) as [[]|e0];
      [destruct cb as [callback|];
       [destruct (api_result _ c _) as [[]|cause]|]|];
      destruct Hcases as (Hr & Hconn & Hcalls); rewrite Hr, Hconn, Hcalls;
      (split; [intros old Hold; rewrite (Hhist old Hold), <- app_assoc;
               eexists; reflexivity|]);
      rewrite ?lookup_insert_eq, ?lookup_delete_eq;
      (split; [try discriminate; reflexivity|]);
      (split; [try discriminate; reflexivity|]);
      intros other Hne;
      rewrite ?lookup_insert_ne, ?lookup_delete_ne by congruence; reflexivity. }
  assert (forall w client_id, length (active_connections client_id w) <= 1)
    as Hone.
  { intros w client_id. rewrite active_connections_lookup.
    destruct (connections w !! client_id); cbn; lia. }
  split; [|split; [|split]].
  - exact Hone.
  - intros ops w client_id. apply Hone.
  - exact Hconnect.
  - intros client_id mac1 proxy1 c1 svc1 ntf1 wr1 name1 cb1
           mac2 proxy2 c2 svc2 ntf2 wr2 name2 cb2 w first second Hfirst Hsecond.
    destruct (Hconnect client_id mac1 proxy1 c1 svc1 ntf1 wr1 name1 cb1 w)
      as (_ & Hstored & _).
    fold first in Hstored. specialize (Hstored Hfirst).
    rewrite active_connections_lookup in Hstored.
    destruct (connections (snd first) !! client_id) as [old|] eqn:Hold;
      [|discriminate].
    inversion Hstored; subst old.
    destruct (Hconnect client_id mac2 proxy2 c2 svc2 ntf2 wr2 name2 cb2 (snd first))
      as (Hcalls & Hnew & _).
    fold second in Hcalls, Hnew. split.
    + apply Hnew. exact Hsecond.
    + apply (Hcalls _ Hold).
Qed.

(** **** Notifications *)

Variable callback_result : Callback -> string -> list Z -> Result unit.

(** The closure reads nothing of the registry: a notification for its
    device is handed to the callback it captured, whatever the world
    holds. *)
Lemma on_notification_forwards cl address handle data w :
  upper address = upper (cl_mac_address cl) ->
  callback_calls (on_notification callback_result cl address handle (PBytes data) w) =
    callback_calls w ++ [(cl_callback cl, cl_characteristic_uuid cl, data)].
Proof.
  intros Haddr. unfold on_notification. rewrite Haddr, String.eqb_refl.
  run_py. destruct (callback_result _ _ _) as [[]|e]; reflexivity.
Qed.

End Manager.

Import Fixtures.

Lemma write_without_connection_witness :
  connections init !! "ws-1" = None
  /\ write_characteristic reliable "ws-1" WRITE_UUID [1; 2; 3]%Z true init
     = (Raise NOT_CONNECTED, init).
Proof.
  split; [reflexivity|].
  apply (write_without_connection reliable "ws-1" WRITE_UUID [1; 2; 3]%Z true init).
  reflexivity.
Defined.

Lemma two_connects_witness :
  active_connections "ws-1"
    (snd (connect_ws1 reliable instant None
            (snd (connect_ws1 reliable instant (Some 1) init))))
  = [CONNECTION_WS1 None].
Proof.
  destruct (one_connection_per_session default_settings reliable instant)
    as (_ & _ & _ & Htwice).
  destruct (Htwice "ws-1"
              MAC "proxy-1" 7 SERVICE NOTIFY WRITE_UUID (Some "SFP Wizard") (Some 1)
              MAC "proxy-1" 7 SERVICE NOTIFY WRITE_UUID (Some "SFP Wizard") None
              init eq_refl eq_refl) as [Hone _].
  exact Hone.
Defined.

Lemma disconnect_witness :
  fst (disconnect_device refuses_disconnect "ws-1"
         (snd (connect_ws1 refuses_disconnect instant None init))) = Ok tt
  /\ connections
       (snd (disconnect_device refuses_disconnect "ws-1"
               (snd (connect_ws1 refuses_disconnect instant None init)))) !! "ws-1"
     = None.
Proof.
  destruct (disconnect_always_clears_entry refuses_disconnect "ws-1"
              (snd (connect_ws1 refuses_disconnect instant None init)))
    as (Hr & Hnone & _).
  split; assumption.
Defined.

Lemma connect_timeout_witness :
  fst (connect_ws1 reliable unreachable (Some 1) init) = Raise CONNECTION_TIMEOUT
  /\ connections (snd (connect_ws1 reliable unreachable (Some 1) init)) !! "ws-1" = None.
Proof.
  destruct (connect_timeout_stores_nothing default_settings reliable unreachable
              "ws-1" MAC "proxy-1" 7 SERVICE NOTIFY WRITE_UUID (Some "SFP Wizard")
              (Some 1) init eq_refl) as (Hr & Hnone & _).
  split; assumption.
Defined.

Lemma failed_connect_witness :
  connections (snd (connect_ws1 refuses_subscription instant (Some 1) init)) !! "ws-1"
  = None.
Proof.
  destruct (failed_connect_stores_nothing default_settings refuses_subscription instant
              "ws-1" MAC "proxy-1" 7 SERVICE NOTIFY WRITE_UUID (Some "SFP Wizard")
              (Some 1) init
              (mkExc RuntimeError
                 "Connection failed: Subscription failed: Not connected")
              eq_refl) as (Hnone & _).
  exact Hnone.
Defined.

(** C7 (as stated) fails: with a transport that connects and then refuses
    the subscription, [connect_device] raises after the device connection
    was established, and the only calls it has made are the connect and
    the subscribe; no disconnect is issued for the new connection. *)
Lemma failed_connect_keeps_device_link : ~ failed_connect_releases_device.
Proof.
  intros Hclaim.
  destruct (Hclaim default_settings refuses_subscription instant
              "ws-1" MAC "proxy-1" 7 SERVICE NOTIFY WRITE_UUID (Some "SFP Wizard")
              (Some 1) init
              (mkExc RuntimeError
                 "Connection failed: Subscription failed: Not connected")
              eq_refl eq_refl) as [Hin _].
  vm_compute in Hin.
  destruct Hin as [Heq | [Heq | []]]; inversion Heq.
Qed.

(** C2 fails on the code.  A session connects with callback 1 and is
    disconnected, which is where the manager means to stop calling the
    callback: the registry has no entry left.  The closure the transport
    was given still forwards the next notification to the callback. *)
Theorem notification_after_disconnect_is_forwarded :
  let w1 := snd (connect_ws1 reliable instant (Some 1) init) in
  let w2 := snd (disconnect_device reliable "ws-1" w1) in
  In (7, subscribe_bluetooth_le_raw_advertisements (mkClosure MAC NOTIFY 1))
     (api_calls w1)
  /\ connections w2 !! "ws-1" = None
  /\ callback_calls w2 = []
  /\ callback_calls
       (on_notification callbacks_return (mkClosure MAC NOTIFY 1)
          "aa:bb:cc:dd:ee:ff" 42 (PBytes [1; 2; 3]%Z) w2)
     = [(1, NOTIFY, [1; 2; 3]%Z)].
Proof.
  cbv zeta. split; [|split; [|split]].
  - vm_compute. right. left. reflexivity.
  - vm_compute. reflexivity.
  - vm_compute. reflexivity.
  - rewrite on_notification_forwards by reflexivity. vm_compute. reflexivity.
Qed.

End ConnectionManagerFacts.

(** *** Properties of the session handler *)

Module BLEProxyFacts.

Import Base64 BLEProxy ProxySpec.

Ltac run_py :=
  unfold bind, get, modify, ret, raise, try_except, try_finally in *;
  cbn beta iota zeta in *.

Section Handler.

Context {T : Type} `{BLEManager T}.

Variable json_loads : string -> Result Json.
Variable py_str : Json -> string.
Variable BLEConnectMessage_init : list (string * Json) -> Result BLEConnectMessage.
Variable BLEDisconnectMessage_init : list (string * Json) -> Result unit.
Variable BLEWriteMessage_init : list (string * Json) -> Result BLEWriteMessage.
Variable BLESubscribeMessage_init : list (string * Json) -> Result BLESubscribeMessage.
Variable BLEUnsubscribeMessage_init : list (string * Json) -> Result BLEUnsubscribeMessage.
Variable BLEDiscoverMessage_init : list (string * Json) -> Result BLEDiscoverMessage.
Variable send_json : list Event -> Event -> Result unit.

#[local] Abbreviation sends_one := (sends_one (T := T) send_json).
#[local] Abbreviation send_message := (send_message send_json).
#[local] Abbreviation send_error := (send_error send_json).
#[local] Abbreviation send_status := (send_status send_json).
#[local] Abbreviation handle_write := (handle_write send_json).
#[local] Abbreviation handle_message :=
  (handle_message json_loads py_str BLEConnectMessage_init BLEDisconnectMessage_init
     BLEWriteMessage_init BLESubscribeMessage_init BLEUnsubscribeMessage_init
     BLEDiscoverMessage_init send_json).
#[local] Abbreviation loop_round :=
  (loop_round json_loads py_str BLEConnectMessage_init BLEDisconnectMessage_init
     BLEWriteMessage_init BLESubscribeMessage_init BLEUnsubscribeMessage_init
     BLEDiscoverMessage_init send_json).
#[local] Abbreviation message_loop :=
  (message_loop json_loads py_str BLEConnectMessage_init BLEDisconnectMessage_init
     BLEWriteMessage_init BLESubscribeMessage_init BLEUnsubscribeMessage_init
     BLEDiscoverMessage_init send_json).
#[local] Abbreviation rejection :=
  (rejection json_loads py_str BLEConnectMessage_init BLEDisconnectMessage_init
     BLEWriteMessage_init BLESubscribeMessage_init BLEUnsubscribeMessage_init
     BLEDiscoverMessage_init).

(** **** Sending *)

Lemma send_message_spec ev h :
  fst (send_message ev h) = Ok tt /\ sends_one ev h (snd (send_message ev h)).
Proof.
  unfold BLEProxy.send_message.
  destruct (send_json (sent h) ev) as [[]|e] eqn:Hsend; cbn; split;
    try reflexivity; constructor; rewrite ?Hsend; reflexivity.
Qed.

Lemma sends_one_after_log ev lvl msg h h' :
  sends_one ev (record_log lvl msg h) h' -> sends_one ev h h'.
Proof. intros [? ? ? ?]. constructor; assumption. Qed.

(** The answer of the loop to an exception raised while a frame is
    decoded: one error event with the text of [decode_error_text]. *)
Lemma decode_exception_answer (e : Exception) h :
  sends_one (Error (decode_error_text e) None) h
    (snd (try_except
            (try_except (raise e)
               (fun e =>
                  match exc_class e with
                  | ValidationError =>
                      send_error ("Invalid message format: " +:+ exc_str e) None
                  | JSONDecodeError => send_error ("Invalid JSON: " +:+ exc_str e) None
                  | _ => raise e
                  end))
            (on_loop_exception send_json) h)).
Proof.
  unfold on_loop_exception, logger, BLEProxy.send_error, decode_error_text. run_py.
  destruct e as [cls str]; destruct cls; cbn [exc_class exc_str];
    match goal with
    | |- sends_one ?ev h (snd (BLEProxy.send_message _ ?ev (record_log ?l ?m h))) =>
        apply (sends_one_after_log ev l m);
        apply (send_message_spec ev (record_log l m h))
    | |- context [BLEProxy.send_message send_json ?ev h] =>
        pose proof (send_message_spec ev h) as [Hr Hs];
        destruct (BLEProxy.send_message send_json ev h) as [[[]|] ?];
        cbn in *; try discriminate; exact Hs
    end.
Qed.

(** **** Frames that do not decode *)



(** **** Commands *)

(** Taking the handlers apart along every branch they have. *)
Ltac branches :=
  unfold BLEProxy.handle_connect, BLEProxy.handle_disconnect,
    BLEProxy.handle_write, BLEProxy.handle_subscribe,
    BLEProxy.handle_unsubscribe, BLEProxy.handle_discover,
    BLEProxy.send_status, BLEProxy.send_error, BLEProxy.send_message,
    call_manager, lift, logger;
  run_py;
  repeat (cbn [fst snd ble_manager sent manager_calls running log
               record_manager_call set_ble_manager record_sent record_log
               set_running];
          match goal with
          | |- context [match ?x with _ => _ end] =>
              lazymatch x with
              | context [match _ with _ => _ end] => fail
              | _ => destruct x eqn:?
              end
          end);
  cbn [fst snd ble_manager sent manager_calls running log
       record_manager_call set_ble_manager record_sent record_log
       set_running].

Lemma handle_connect_once message : answers_once (handle_connect send_json message).
Proof. intros h. branches; split; try reflexivity; eexists; split; reflexivity || exact I. Qed.

Lemma handle_disconnect_once message : answers_once (handle_disconnect send_json message).
Proof. intros h. branches; split; try reflexivity; eexists; split; reflexivity || exact I. Qed.

Lemma handle_discover_once message : answers_once (handle_discover send_json message).
Proof. intros h. branches; split; try reflexivity; eexists; split; reflexivity || exact I. Qed.

Ltac one_event :=
  split; [reflexivity|]; eexists; split; [reflexivity|];
  cbn; unfold status_device_name; cbn;
  repeat match goal with
         | Hc : is_connected _ = _ |- _ => rewrite Hc
         end;
  try reflexivity; exact I.

Lemma handle_write_once message : answers_once (handle_write message).
Proof. intros h. branches; one_event. Qed.

Lemma handle_subscribe_once message : answers_once (handle_subscribe send_json message).
Proof. intros h. branches; one_event. Qed.

Lemma handle_unsubscribe_once message :
  answers_once (handle_unsubscribe send_json message).
Proof. intros h. branches; one_event. Qed.

Lemma send_error_once text details : answers_once (send_error text details).
Proof. intros h. branches; one_event. Qed.

(** **** One round of the loop *)

Lemma answered_in_loop (m : M (@Handler T) unit) handler h :
  answers_once m ->
  answered h (snd (try_except (try_except m handler)
                     (on_loop_exception send_json) h)).
Proof.
  intros Hm. destruct (Hm h) as [Hr (ev & Hs & Ha)].
  unfold try_except. destruct (m h) as [[[]|e] h1]; cbn in *;
    [exists ev; split; assumption | discriminate].
Qed.

Lemma answered_decode_exception e h :
  answered h
    (snd (try_except
            (try_except (raise e)
               (fun e =>
                  match exc_class e with
                  | ValidationError =>
                      send_error ("Invalid message format: " +:+ exc_str e) None
                  | JSONDecodeError => send_error ("Invalid JSON: " +:+ exc_str e) None
                  | _ => raise e
                  end))
            (on_loop_exception send_json) h)).
Proof.
  destruct (decode_exception_answer e h) as [Hsent _ Hmgr _].
  eexists. split; [exact Hsent | exact I].
Qed.

Lemma loop_round_answered x h :
  x <> WebSocketDisconnect -> answered h (loop_round x h).
Proof.
  intros Hx. destruct x as [data| |e]; [| congruence |].
  - unfold BLEProxy.loop_round, BLEProxy.handle_message, lift.
    unfold bind at 1 2. cbn beta iota.
    destruct (json_loads data) as [message|e];
      [|exact (answered_decode_exception e h)].
    cbn beta iota.
    destruct (get_type message) as [msg_type|e];
      [|exact (answered_decode_exception e h)].
    cbn beta iota.
    repeat match goal with
           | |- context [if type_is msg_type ?t then _ else _] =>
               destruct (type_is msg_type t);
               [unfold bind at 1; cbn beta iota;
                match goal with
                | |- context [match ?init (items_of message) with _ => _ end] =>
                    destruct (init (items_of message)) as [m|e];
                    [|exact (answered_decode_exception e h)]
                end|]
           end;
      apply answered_in_loop;
      auto using handle_connect_once, handle_disconnect_once, handle_write_once,
        handle_subscribe_once, handle_unsubscribe_once, handle_discover_once,
        send_error_once.
  - unfold BLEProxy.loop_round, on_loop_exception, logger. run_py.
    destruct (send_error_once ("Error handling message: " +:+ exc_str e) None
                (record_log ERROR ("Error handling message: " +:+ exc_str e) h))
      as [_ (ev & Hs & Ha)].
    exists ev. split; assumption.
Qed.

(** C10.  [send_status] copies the manager's [device_address] into the
    [device_name] of the status event whenever the manager is connected;
    and every status event sent in answer to a frame carries, in
    [device_name], the [device_address] of the manager as it is
    connected once the command is done. *)
Theorem status_carries_device_address :
  (forall connected message h m,
      ble_manager h = Some m ->
      is_connected m = true ->
      sent (snd (send_status connected message h)) =
        sent h ++ [Status connected (device_address m) message])
  /\ (forall x h m connected device_name message,
         let h' := loop_round x h in
         In (Status connected device_name message)
            (drop (length (sent h)) (sent h')) ->
         ble_manager h' = Some m ->
         is_connected m = true ->
         device_name = device_address m).
Proof.
  split.
  - intros connected message h m Hm Hc.
    unfold BLEProxy.send_status, BLEProxy.send_message. run_py.
    rewrite Hm, Hc. destruct (send_json _ _); reflexivity.
  - intros x h m connected device_name message h' Hin Hm Hc.
    assert (x = WebSocketDisconnect \/ x <> WebSocketDisconnect) as [->|Hx]
        by (destruct x; auto; right; discriminate).
    + cbn in h'. subst h'. cbn in Hin. rewrite drop_all in Hin. destruct Hin.
    + destruct (loop_round_answered x h Hx) as (ev & Hs & Ha).
      fold h' in Hs, Ha. rewrite Hs, drop_app_length in Hin.
      destruct Hin as [Hev | []]. subst ev.
      cbn in Ha. rewrite Hm in Ha. cbn in Ha. rewrite Hc in Ha. exact Ha.
Qed.

(** **** Write payloads *)


End Handler.

Import Fixtures.

(** The frames of the test double and what they are answered with. *)
Example rejection_of_frames :
  let rejection :=
    rejection json_loads_stub py_str_stub connect_init_stub disconnect_init_stub
      write_init_stub subscribe_init_stub unsubscribe_init_stub discover_init_stub in
  rejection FRAME_ARRAY
  = Some "Error handling message: 'list' object has no attribute 'get'"
  /\ rejection FRAME_UNKNOWN = Some "Unknown message type: fly"
  /\ rejection FRAME_WRITE_NO_FIELDS = Some "Invalid message format: Field required".
Proof. repeat split; reflexivity. Qed.

(** When the socket refuses the error event itself, the handler stops
    running: only an outbound failure ends the session. *)
Example send_failure_ends_session :
  running (loop_round_stub socket_closed (Text FRAME_MALFORMED) (ready (Some MAC)))
  = false.
Proof. reflexivity. Qed.


Lemma status_witness :
  sent (snd (send_status socket_open true "Subscribed" (ready (Some MAC))))
  = [Status true (Some MAC) "Subscribed"].
Proof.
  destruct (status_carries_device_address json_loads_stub py_str_stub
              connect_init_stub disconnect_init_stub write_init_stub
              subscribe_init_stub unsubscribe_init_stub discover_init_stub
              socket_open) as [Hstatus _].
  exact (Hstatus true "Subscribed" (ready (Some MAC)) (Some MAC) eq_refl eq_refl).
Defined.

End BLEProxyFacts.

(** *** Further properties of the connection manager *)

Module RegistryMore.

Import Config ConnectionManager Spec RegistrySpec ConnectionManagerFacts.

Section Manager.

Variable settings : Settings.
Variable api_result : list (APIClient * ApiCall) -> APIClient -> ApiCall -> Result unit.
Variable api_latency : list (APIClient * ApiCall) -> APIClient -> ApiCall -> option Z.

#[local] Abbreviation disconnect_device := (disconnect_device api_result).
#[local] Abbreviation connect_device := (connect_device settings api_result api_latency).
#[local] Abbreviation write_characteristic := (write_characteristic api_result).
#[local] Abbreviation disconnect_each := (disconnect_each api_result).
#[local] Abbreviation disconnect_all := (disconnect_all api_result).
#[local] Abbreviation run_op := (run_op settings api_result api_latency).
#[local] Abbreviation run_ops := (run_ops settings api_result api_latency).

(** What one [disconnect_device] does, with or without a connection. *)
Lemma disconnect_device_effect client_id w :
  fst (disconnect_device client_id w) = Ok tt
  /\ connections (snd (disconnect_device client_id w)) = delete client_id (connections w)
  /\ api_calls (snd (disconnect_device client_id w)) =
       api_calls w ++ match connections w !! client_id with
                      | Some c => [disconnect_call c]
                      | None => []
                      end
  /\ callback_calls (snd (disconnect_device client_id w)) = callback_calls w.
Proof.
  destruct (connections w !! client_id) as [c|] eqn:Hc.
  - destruct (disconnect_device_present api_result client_id w c Hc)
      as (Hr & Hd & Hcalls & Hcb & _).
    repeat split; assumption.
  - rewrite (disconnect_device_absent api_result client_id w Hc). cbn.
    rewrite app_nil_r. repeat split; try reflexivity.
    symmetry. apply delete_id. exact Hc.
Qed.

Lemma disconnect_each_effect (entries : list (string * ActiveConnection)) :
  forall w,
    NoDup (map fst entries) ->
    (forall k c, (k, c) ∈ entries -> connections w !! k = Some c) ->
    fst (disconnect_each (map fst entries) w) = Ok tt
    /\ (forall i,
          connections (snd (disconnect_each (map fst entries) w)) !! i =
            if bool_decide (i ∈ map fst entries) then None
            else connections w !! i)
    /\ api_calls (snd (disconnect_each (map fst entries) w)) =
         api_calls w ++ map (fun kc => disconnect_call (snd kc)) entries.
Proof.
  induction entries as [|[k c] entries IH]; intros w Hnd Hin.
  - cbn. rewrite app_nil_r. repeat split; reflexivity.
  - cbn [map fst ConnectionManager.disconnect_each].
    inversion Hnd as [|? ? Hk Hnd']; subst.
    destruct (disconnect_device_effect k w) as (Hr & Hd & Hcalls & _).
    rewrite (Hin k c (list_elem_of_here _ _)) in Hcalls.
    unfold bind.
    destruct (disconnect_device k w) as [r w1] eqn:Hstep. cbn in Hr, Hd, Hcalls.
    subst r.
    assert (forall k' c', (k', c') ∈ entries -> connections w1 !! k' = Some c')
      as Hin1.
    { intros k' c' Hkc. rewrite Hd, lookup_delete_ne.
      - apply Hin. right. exact Hkc.
      - intros ->. apply Hk. apply (list_elem_of_fmap_2 fst _ _ Hkc). }
    destruct (IH w1 Hnd' Hin1) as (Hr' & Hlook & Hcalls').
    split; [exact Hr'|]. split.
    + intros i. rewrite Hlook, Hd.
      destruct (decide (i = k)) as [->|Hne].
      * rewrite lookup_delete_eq.
        rewrite (bool_decide_eq_true_2 (k ∈ k :: map fst entries))
          by (left; reflexivity).
        destruct (bool_decide _); reflexivity.
      * rewrite lookup_delete_ne by congruence.
        destruct (bool_decide (i ∈ map fst entries)) eqn:Hi.
        -- apply bool_decide_eq_true_1 in Hi.
           rewrite (bool_decide_eq_true_2 (i ∈ k :: map fst entries))
             by (right; exact Hi).
           reflexivity.
        -- apply bool_decide_eq_false_1 in Hi.
           rewrite (bool_decide_eq_false_2 (i ∈ k :: map fst entries)).
           ++ reflexivity.
           ++ intros Hin'. apply elem_of_cons in Hin' as [Heq | Hi'];
                [congruence | contradiction].
    + rewrite Hcalls', Hcalls, <- app_assoc. reflexivity.
Qed.

Lemma disconnect_all_effect w :
  fst (disconnect_all w) = Ok tt
  /\ connections (snd (disconnect_all w)) = ∅
  /\ api_calls (snd (disconnect_all w)) =
       api_calls w
         ++ map (fun kc => disconnect_call (snd kc)) (map_to_list (connections w)).
Proof.
  unfold ConnectionManager.disconnect_all, logger. run_py.
  set (w0 := record_log INFO _ w).
  assert (NoDup (map fst (map_to_list (connections w0)))) as Hnd.
  { apply (NoDup_fst_map_to_list (connections w)). }
  assert (forall k c, (k, c) ∈ map_to_list (connections w0) ->
                      connections w0 !! k = Some c) as Hin.
  { intros k c Hkc. apply elem_of_map_to_list. exact Hkc. }
  destruct (disconnect_each_effect (map_to_list (connections w0)) w0 Hnd Hin)
    as (Hr & Hlook & Hcalls).
  change (connections w0) with (connections w) in *.
  destruct (disconnect_each (map fst (map_to_list (connections w))) w0)
    as [r w1] eqn:Hrun.
  cbn in Hr, Hlook, Hcalls. subst r. cbn.
  split; [reflexivity|]. split; [|exact Hcalls].
  apply map_eq. intros i. rewrite Hlook, lookup_empty.
  destruct (bool_decide (i ∈ map fst (map_to_list (connections w)))) eqn:Hi;
    [reflexivity|].
  apply bool_decide_eq_false_1 in Hi.
  destruct (connections w !! i) as [c|] eqn:Hc; [|reflexivity].
  exfalso. apply Hi. apply (list_elem_of_fmap_2 fst _ (i, c)).
  apply elem_of_map_to_list. exact Hc.
Qed.

Lemma disconnect_all_registry_empty w :
  connections (snd (disconnect_all w)) = ∅.
Proof. apply disconnect_all_effect. Qed.

(** X1.  On a transport whose disconnect calls return or raise an
    exception derived from [Exception] (what [api_result] ranges over: no
    call is cancelled), [disconnect_all] returns normally and leaves the
    registry empty, whichever of the disconnects fail; the calls it makes
    on the transport are, in some order, one disconnect for each
    connection of the registry, and nothing else. *)
Theorem disconnect_all_empties_registry w :
  fst (disconnect_all w) = Ok tt
  /\ connections (snd (disconnect_all w)) = ∅
  /\ exists calls,
       api_calls (snd (disconnect_all w)) = api_calls w ++ calls
       /\ calls ≡ₚ map (fun kc => disconnect_call (snd kc))
                     (map_to_list (connections w)).
Proof.
  destruct (disconnect_all_effect w) as (Hr & Hempty & Hcalls).
  split; [exact Hr|]. split; [exact Hempty|].
  eexists. split; [exact Hcalls | reflexivity].
Qed.

(** X2.  A write for a session that has a connection asks the
    connection's client for one GATT write to the connection's device, with
    handle 0, the data unchanged and the response flag as given.  The
    registry is the same afterwards whether the write succeeded or not, and
    a failure of the transport is raised as a RuntimeError that carries
    its text. *)
Theorem write_reaches_device client_id uuid data resp w c :
  connections w !! client_id = Some c ->
  let r := fst (write_characteristic client_id uuid data resp w) in
  let w' := snd (write_characteristic client_id uuid data resp w) in
  api_calls w' =
    api_calls w ++ [(client c, bluetooth_gatt_write (mac_address c) 0 data resp)]
  /\ connections w' = connections w
  /\ r = match api_result (api_calls w) (client c)
                 (bluetooth_gatt_write (mac_address c) 0 data resp) with
         | Ok _ => Ok tt
         | Raise e => Raise (mkExc RuntimeError ("Write failed: " +:+ exc_str e))
         end.
Proof.
  intros Hc. cbv zeta.
  destruct (write_characteristic_present api_result client_id uuid data resp w c Hc)
    as (Hconn & Hcalls & Hr).
  repeat split; assumption.
Qed.

(** X3.  The characteristic UUID of a write never reaches the transport:
    two writes that differ only in the UUID have the same outcome, make
    the same transport calls and leave the same registry.  The UUID only
    decides whether a warning is logged. *)
Theorem write_ignores_characteristic_uuid client_id uuid1 uuid2 data resp w :
  fst (write_characteristic client_id uuid1 data resp w) =
    fst (write_characteristic client_id uuid2 data resp w)
  /\ api_calls (snd (write_characteristic client_id uuid1 data resp w)) =
       api_calls (snd (write_characteristic client_id uuid2 data resp w))
  /\ connections (snd (write_characteristic client_id uuid1 data resp w)) =
       connections (snd (write_characteristic client_id uuid2 data resp w)).
Proof.
  destruct (connections w !! client_id) as [c|] eqn:Hc.
  - destruct (write_characteristic_present api_result client_id uuid1 data resp w c Hc)
      as (Hconn1 & Hcalls1 & Hr1).
    destruct (write_characteristic_present api_result client_id uuid2 data resp w c Hc)
      as (Hconn2 & Hcalls2 & Hr2).
    rewrite Hconn1, Hconn2, Hcalls1, Hcalls2, Hr1, Hr2. repeat split; reflexivity.
  - unfold ConnectionManager.write_characteristic. run_py. rewrite Hc.
    repeat split; reflexivity.
Qed.

(** X4.  [disconnect_device] touches only its own session, and a second
    disconnect of the same session does nothing: no transport call, the
    registry as it was. *)
Theorem disconnect_is_local_and_idempotent client_id w :
  let w1 := snd (disconnect_device client_id w) in
  let w2 := snd (disconnect_device client_id w1) in
  (forall other, other <> client_id ->
                 connections w1 !! other = connections w !! other)
  /\ fst (disconnect_device client_id w1) = Ok tt
  /\ api_calls w2 = api_calls w1
  /\ connections w2 = connections w1.
Proof.
  cbv zeta.
  destruct (disconnect_device_effect client_id w) as (_ & Hd & _).
  split.
  - intros other Hne. rewrite Hd. apply lookup_delete_ne. congruence.
  - assert (connections (snd (disconnect_device client_id w)) !! client_id = None)
      as Hnone by (rewrite Hd; apply lookup_delete_eq).
    rewrite (disconnect_device_absent api_result client_id _ Hnone). cbn.
    repeat split; reflexivity.
Qed.

(** X5.  When the connect call on the transport fails, [connect_device]
    makes no further transport call (no subscription is attempted) and
    stores nothing.  A TimeoutError, raised by the timer or by the client
    itself, is reported as the connection timeout; every other exception
    as a failed connection with its text. *)
Theorem connect_failure_reports_cause client_id mac proxy c svc ntf wr name cb w e :
  connect_attempt settings api_result api_latency
    (history_at_connect client_id w) c mac = Raise e ->
  let r := fst (connect_device client_id mac proxy c svc ntf wr name cb w) in
  let w' := snd (connect_device client_id mac proxy c svc ntf wr name cb w) in
  r = Raise (if is_timeout e then CONNECTION_TIMEOUT
             else mkExc RuntimeError ("Connection failed: " +:+ exc_str e))
  /\ api_calls w' = history_at_connect client_id w ++ [(c, bluetooth_device_connect mac)]
  /\ connections w' = delete client_id (connections w).
Proof.
  intros Hattempt. cbv zeta.
  destruct (connect_device_cases settings api_result api_latency
              client_id mac proxy c svc ntf wr name cb w) as [_ Hcases].
  cbv zeta in Hcases. rewrite Hattempt in Hcases.
  destruct Hcases as (Hr & Hconn & Hcalls). repeat split; assumption.
Qed.

Lemma connect_success_lookup
      client_id mac proxy c svc ntf wr name cb w :
  fst (connect_device client_id mac proxy c svc ntf wr name cb w) = Ok tt ->
  connections (snd (connect_device client_id mac proxy c svc ntf wr name cb w))
    !! client_id
  = Some (mkActiveConnection mac name proxy c svc ntf wr cb).
Proof.
  intros Hok.
  destruct (connect_device_cases settings api_result api_latency
              client_id mac proxy c svc ntf wr name cb w) as [_ Hcases].
  cbv zeta in Hcases.
  destruct (connect_attempt settings api_result api_latency
              (history_at_connect client_id w) c mac) as [[]|e0];
    [destruct cb as [callback|]; [destruct (api_result _ c _) as [[]|cause]|]|];
    destruct Hcases as (Hr & Hconn & Hcalls); try congruence;
    rewrite Hconn; apply lookup_insert_eq.
Qed.

(** X6.  A connect that returns has stored the connection with the fields
    it was given, so [get_connection] finds it and [is_connected] holds.
    With a callback, the subscription was installed right after the
    connect, with a closure over the device address, the notify
    characteristic and that callback; without one, no subscription is
    made.  No callback is invoked by connecting. *)
Theorem connect_success_stores_and_subscribes client_id mac proxy c svc ntf wr name cb w :
  fst (connect_device client_id mac proxy c svc ntf wr name cb w) = Ok tt ->
  let w' := snd (connect_device client_id mac proxy c svc ntf wr name cb w) in
  get_connection client_id w' = Some (mkActiveConnection mac name proxy c svc ntf wr cb)
  /\ is_connected client_id w' = true
  /\ api_calls w' =
       history_at_connect client_id w
         ++ (c, bluetooth_device_connect mac)
         :: match cb with
            | Some callback =>
                [(c, subscribe_bluetooth_le_raw_advertisements
                       (mkClosure mac ntf callback))]
            | None => []
            end
  /\ callback_calls w' = callback_calls w.
Proof.
  intros Hok. cbv zeta.
  destruct (connect_device_cases settings api_result api_latency
              client_id mac proxy c svc ntf wr name cb w) as [Hcb Hcases].
  cbv zeta in Hcases. unfold get_connection, is_connected.
  destruct (connect_attempt settings api_result api_latency
              (history_at_connect client_id w) c mac) as [[]|e0];
    [destruct cb as [callback|]; [destruct (api_result _ c _) as [[]|cause]|]|];
    destruct Hcases as (Hr & Hconn & Hcalls); try congruence;
    rewrite Hconn, Hcalls, lookup_insert_eq; repeat split; try assumption; reflexivity.
Qed.

(** X7.  After a connect that returned, a write for the session goes to
    the device and the client of that connect, and leaves the connection
    in place. *)
Theorem connect_then_write client_id mac proxy c svc ntf wr name cb uuid data resp w :
  fst (connect_device client_id mac proxy c svc ntf wr name cb w) = Ok tt ->
  let w1 := snd (connect_device client_id mac proxy c svc ntf wr name cb w) in
  let w2 := snd (write_characteristic client_id uuid data resp w1) in
  api_calls w2 = api_calls w1 ++ [(c, bluetooth_gatt_write mac 0 data resp)]
  /\ connections w2 !! client_id =
       Some (mkActiveConnection mac name proxy c svc ntf wr cb).
Proof.
  intros Hok. cbv zeta.
  pose proof (connect_success_lookup
                client_id mac proxy c svc ntf wr name cb w Hok) as Hstored.
  destruct (write_characteristic_present api_result client_id uuid data resp _ _ Hstored)
    as (Hconn & Hcalls & _).
  rewrite Hconn, Hcalls. split; [reflexivity | exact Hstored].
Qed.

Lemma connect_success_registry client_id mac proxy c svc ntf wr name cb w :
  fst (connect_device client_id mac proxy c svc ntf wr name cb w) = Ok tt ->
  connections (snd (connect_device client_id mac proxy c svc ntf wr name cb w))
  = <[client_id := mkActiveConnection mac name proxy c svc ntf wr cb]> (connections w).
Proof.
  intros Hok.
  destruct (connect_device_cases settings api_result api_latency
              client_id mac proxy c svc ntf wr name cb w) as [_ Hcases].
  cbv zeta in Hcases.
  destruct (connect_attempt settings api_result api_latency
              (history_at_connect client_id w) c mac) as [[]|e0];
    [destruct cb as [callback|]; [destruct (api_result _ c _) as [[]|cause]|]|];
    destruct Hcases as (Hr & Hconn & Hcalls); congruence.
Qed.

(** X8.  Connecting a session and then disconnecting it leaves the
    registry as it was without that session's entry (unchanged for a
    session that had none), and the last call on the transport is the
    disconnect of the device just connected. *)
Theorem connect_then_disconnect client_id mac proxy c svc ntf wr name cb w :
  fst (connect_device client_id mac proxy c svc ntf wr name cb w) = Ok tt ->
  let w1 := snd (connect_device client_id mac proxy c svc ntf wr name cb w) in
  let w2 := snd (disconnect_device client_id w1) in
  connections w2 = delete client_id (connections w)
  /\ api_calls w2 = api_calls w1 ++ [(c, bluetooth_device_disconnect mac)]
  /\ is_connected client_id w2 = false
  /\ (connections w !! client_id = None -> connections w2 = connections w).
Proof.
  intros Hok. cbv zeta.
  pose proof (connect_success_registry client_id mac proxy c svc ntf wr name cb w Hok)
    as Hreg.
  destruct (disconnect_device_effect
              client_id (snd (connect_device client_id mac proxy c svc ntf wr name cb w)))
    as (_ & Hd & Hcalls & _).
  rewrite Hreg, lookup_insert_eq in Hcalls. rewrite Hreg, delete_insert_eq in Hd.
  unfold is_connected. rewrite Hd, Hcalls, lookup_delete_eq.
  repeat split; try reflexivity.
  intros Hnone. apply delete_id. exact Hnone.
Qed.

(** **** Sessions and the transport *)

Lemma write_keeps_registry client_id uuid data resp w :
  connections (snd (write_characteristic client_id uuid data resp w)) = connections w
  /\ exists calls,
      api_calls (snd (write_characteristic client_id uuid data resp w)) =
        api_calls w ++ calls.
Proof.
  destruct (connections w !! client_id) as [c|] eqn:Hc.
  - destruct (write_characteristic_present api_result client_id uuid data resp w c Hc)
      as (Hconn & Hcalls & _).
    split; [exact Hconn | eexists; exact Hcalls].
  - unfold ConnectionManager.write_characteristic. run_py. rewrite Hc. cbn.
    split; [reflexivity | exists []; symmetry; apply app_nil_r].
Qed.

(** What a connect does to the registry and to the list of calls. *)
Lemma connect_device_effect client_id mac proxy c svc ntf wr name cb w :
  let w' := snd (connect_device client_id mac proxy c svc ntf wr name cb w) in
  (connections w' = delete client_id (connections w)
   \/ (connections w' =
         <[client_id := mkActiveConnection mac name proxy c svc ntf wr cb]> (connections w)
       /\ In (c, bluetooth_device_connect mac) (api_calls w')))
  /\ exists calls, api_calls w' = api_calls w ++ calls.
Proof.
  cbv zeta.
  destruct (connect_device_cases settings api_result api_latency
              client_id mac proxy c svc ntf wr name cb w) as [_ Hcases].
  cbv zeta in Hcases.
  assert (exists pre, history_at_connect client_id w = api_calls w ++ pre)
    as [pre Hpre].
  { unfold history_at_connect. destruct (connections w !! client_id).
    - eexists. reflexivity.
    - exists []. symmetry. apply app_nil_r. }
  destruct (connect_attempt settings api_result api_latency
              (history_at_connect client_id w) c mac) as [[]|e0];
    [destruct cb as [callback|]; [destruct (api_result _ c _) as [[]|cause]|]|];
    destruct Hcases as (Hr & Hconn & Hcalls); rewrite Hconn, Hcalls, Hpre;
    (split; [|rewrite <- app_assoc; eexists; reflexivity]);
    try (left; reflexivity);
    right; (split; [reflexivity|]);
    apply in_or_app; right; left; reflexivity.
Qed.

Lemma run_op_elsewhere client_id op w :
  addressed_elsewhere client_id op = true ->
  connections (snd (run_op op w)) !! client_id = connections w !! client_id.
Proof.
  destruct op as [cid mac proxy c svc ntf wr name cb|cid|cid uuid data resp|];
    cbn [addressed_elsewhere ConnectionManager.run_op]; intros Hne;
    try discriminate;
    apply negb_true_iff, String.eqb_neq in Hne.
  - destruct (connect_device_effect cid mac proxy c svc ntf wr name cb w)
      as [[Hconn | [Hconn _]] _]; rewrite Hconn.
    + apply lookup_delete_ne. exact Hne.
    + apply lookup_insert_ne. exact Hne.
  - destruct (disconnect_device_effect cid w) as (_ & Hd & _).
    rewrite Hd. apply lookup_delete_ne. exact Hne.
  - destruct (write_keeps_registry cid uuid data resp w) as [Hconn _].
    rewrite Hconn. reflexivity.
Qed.

(** X9.  Sessions are isolated: whatever connects, disconnects and writes
    are issued for other sessions, and however they end, a session's entry
    in the registry stays exactly as it was. *)
Theorem sessions_are_isolated client_id ops w :
  forallb (addressed_elsewhere client_id) ops = true ->
  connections (run_ops ops w) !! client_id = connections w !! client_id.
Proof.
  unfold ConnectionManager.run_ops. revert w.
  induction ops as [|op ops IH]; intros w Hops; [reflexivity|].
  cbn in Hops. apply andb_true_iff in Hops as [Hop Hops].
  cbn [fold_left]. rewrite (IH _ Hops). apply run_op_elsewhere. exact Hop.
Qed.

Lemma run_op_keeps_entries_connected op w :
  entries_were_connected w -> entries_were_connected (snd (run_op op w)).
Proof.
  intros Hinv.
  destruct op as [cid mac proxy c svc ntf wr name cb|cid|cid uuid data resp|];
    cbn [ConnectionManager.run_op]; intros k conn Hk.
  - destruct (connect_device_effect cid mac proxy c svc ntf wr name cb w)
      as [Hconn [calls Hcalls]].
    destruct (decide (k = cid)) as [->|Hne].
    + destruct Hconn as [Hconn | [Hconn Hin]]; rewrite Hconn in Hk.
      * rewrite lookup_delete_eq in Hk. discriminate.
      * rewrite lookup_insert_eq in Hk. inversion Hk; subst conn. exact Hin.
    + rewrite Hcalls. apply in_or_app. left. apply (Hinv k).
      destruct Hconn as [Hconn | [Hconn _]]; rewrite Hconn in Hk.
      * rewrite lookup_delete_ne in Hk by congruence. exact Hk.
      * rewrite lookup_insert_ne in Hk by congruence. exact Hk.
  - destruct (disconnect_device_effect cid w) as (_ & Hd & Hcalls & _).
    rewrite Hcalls. apply in_or_app. left. apply (Hinv k).
    rewrite Hd in Hk. destruct (decide (k = cid)) as [->|Hne].
    + rewrite lookup_delete_eq in Hk. discriminate.
    + rewrite lookup_delete_ne in Hk by congruence. exact Hk.
  - destruct (write_keeps_registry cid uuid data resp w) as [Hconn [calls Hcalls]].
    rewrite Hcalls. apply in_or_app. left. apply (Hinv k).
    rewrite Hconn in Hk. exact Hk.
  - rewrite disconnect_all_registry_empty, lookup_empty in Hk. discriminate.
Qed.

(** X10.  From a fresh manager on, whatever operations are issued, every
    connection found in the registry is one the transport was asked to
    establish: the connect call for its device on its client is among the
    calls made. *)
Theorem registry_entries_were_connected ops :
  entries_were_connected (run_ops ops init).
Proof.
  assert (forall w, entries_were_connected w -> entries_were_connected (run_ops ops w))
    as Hgen.
  { unfold ConnectionManager.run_ops. induction ops as [|op ops IH]; intros w Hinv.
    - exact Hinv.
    - cbn [fold_left]. apply IH. apply run_op_keeps_entries_connected. exact Hinv. }
  apply Hgen. intros k c Hk. cbn in Hk. rewrite lookup_empty in Hk. discriminate.
Qed.

(** **** Notifications *)

Variable callback_result : Callback -> string -> list Z -> Result unit.

#[local] Abbreviation on_notification := (on_notification callback_result).

(** X11.  A payload that arrives as a list of integers is handed to the
    callback as bytes when all its elements are bytes; otherwise the
    callback is not called and the error is logged. *)
Theorem notification_list_payload cl address handle l w :
  upper address = upper (cl_mac_address cl) ->
  let w' := on_notification cl address handle (PList l) w in
  if forallb (fun x => (0 <=? x)%Z && (x <? 256)%Z) l
  then callback_calls w' =
         callback_calls w ++ [(cl_callback cl, cl_characteristic_uuid cl, l)]
  else callback_calls w' = callback_calls w
       /\ In (ERROR, "Error in notification callback: bytes must be in range(0, 256)")
            (log w').
Proof.
  intros Haddr. cbv zeta. unfold ConnectionManager.on_notification, bytes_of_list.
  rewrite Haddr, String.eqb_refl. run_py.
  destruct (forallb _ l); cbn.
  - destruct (callback_result _ _ _) as [[]|e]; reflexivity.
  - split; [reflexivity|]. apply in_or_app. right. left. reflexivity.
Qed.

(** X12.  The closure never touches the registry or the transport.  A
    notification from another device, its address compared without regard
    to case, changes nothing at all; and an exception raised by the
    callback goes no further than an error in the log. *)
Theorem notification_is_contained cl address handle data w :
  let w' := on_notification cl address handle data w in
  connections w' = connections w
  /\ api_calls w' = api_calls w
  /\ (upper address <> upper (cl_mac_address cl) -> w' = w)
  /\ (forall b e,
         data = PBytes b ->
         upper address = upper (cl_mac_address cl) ->
         callback_result (cl_callback cl) (cl_characteristic_uuid cl) b = Raise e ->
         callback_calls w' =
           callback_calls w ++ [(cl_callback cl, cl_characteristic_uuid cl, b)]
         /\ In (ERROR, "Error in notification callback: " +:+ exc_str e) (log w')).
Proof.
  cbv zeta. unfold ConnectionManager.on_notification, bytes_of_list.
  destruct (String.eqb (upper address) (upper (cl_mac_address cl))) eqn:Haddr.
  - run_py. split; [|split; [|split]].
    + destruct data as [b|l]; [|destruct (forallb _ l)]; cbn;
        try destruct (callback_result _ _ _) as [[]|e]; reflexivity.
    + destruct data as [b|l]; [|destruct (forallb _ l)]; cbn;
        try destruct (callback_result _ _ _) as [[]|e]; reflexivity.
    + intros Hne. apply String.eqb_eq in Haddr. contradiction.
    + intros b e -> _ He. rewrite He. cbn. split; [reflexivity|].
      apply in_or_app. right. left. reflexivity.
  - split; [reflexivity|]. split; [reflexivity|]. split; [reflexivity|].
    intros b e _ Heq. apply String.eqb_neq in Haddr. contradiction.
Qed.

End Manager.

Import Fixtures.

Lemma write_reaches_device_witness :
  api_calls
    (snd (write_characteristic reliable "ws-1" WRITE_UUID [1; 2; 3]%Z true
            (snd (connect_ws1 reliable instant None init))))
  = [(7, bluetooth_device_connect MAC);
     (7, bluetooth_gatt_write MAC 0 [1; 2; 3]%Z true)].
Proof.
  destruct (write_reaches_device reliable "ws-1" WRITE_UUID [1; 2; 3]%Z true
              (snd (connect_ws1 reliable instant None init))
              (CONNECTION_WS1 None) eq_refl) as (Hcalls & _).
  exact Hcalls.
Defined.

Lemma connect_failure_witness :
  fst (connect_ws1 refuses_connect instant (Some 1) init)
  = Raise (mkExc RuntimeError "Connection failed: Device not found").
Proof.
  destruct (connect_failure_reports_cause default_settings refuses_connect instant
              "ws-1" MAC "proxy-1" 7 SERVICE NOTIFY WRITE_UUID (Some "SFP Wizard")
              (Some 1) init
              (mkExc (OtherError "BluetoothConnectionDroppedError") "Device not found")
              eq_refl) as (Hr & _).
  exact Hr.
Defined.

Lemma connect_success_witness :
  get_connection "ws-1" (snd (connect_ws1 reliable instant (Some 1) init))
  = Some (CONNECTION_WS1 (Some 1)).
Proof.
  destruct (connect_success_stores_and_subscribes default_settings reliable instant
              "ws-1" MAC "proxy-1" 7 SERVICE NOTIFY WRITE_UUID (Some "SFP Wizard")
              (Some 1) init eq_refl) as (Hget & _).
  exact Hget.
Defined.

Lemma connect_then_write_witness :
  api_calls
    (snd (write_characteristic reliable "ws-1" WRITE_UUID [255]%Z false
            (snd (connect_ws1 reliable instant None init))))
  = api_calls (snd (connect_ws1 reliable instant None init))
      ++ [(7, bluetooth_gatt_write MAC 0 [255]%Z false)].
Proof.
  destruct (connect_then_write default_settings reliable instant
              "ws-1" MAC "proxy-1" 7 SERVICE NOTIFY WRITE_UUID (Some "SFP Wizard")
              None WRITE_UUID [255]%Z false init eq_refl) as (Hcalls & _).
  exact Hcalls.
Defined.

Lemma connect_then_disconnect_witness :
  connections
    (snd (disconnect_device refuses_disconnect "ws-1"
            (snd (connect_ws1 refuses_disconnect instant None init))))
  = connections init.
Proof.
  destruct (connect_then_disconnect default_settings refuses_disconnect instant
              "ws-1" MAC "proxy-1" 7 SERVICE NOTIFY WRITE_UUID (Some "SFP Wizard")
              None init eq_refl) as (_ & _ & _ & Hsame).
  exact (Hsame eq_refl).
Defined.

Lemma sessions_are_isolated_witness :
  connections
    (run_ops default_settings reliable instant
       [OpConnect "ws-2" "11:22:33:44:55:66" "proxy-1" 7 SERVICE NOTIFY WRITE_UUID
          None None;
        OpWrite "ws-2" WRITE_UUID [0]%Z true;
        OpDisconnect "ws-2"]
       (snd (connect_ws1 reliable instant None init))) !! "ws-1"
  = Some (CONNECTION_WS1 None).
Proof.
  rewrite (sessions_are_isolated default_settings reliable instant "ws-1"
             [OpConnect "ws-2" "11:22:33:44:55:66" "proxy-1" 7 SERVICE NOTIFY WRITE_UUID
                None None;
              OpWrite "ws-2" WRITE_UUID [0]%Z true;
              OpDisconnect "ws-2"]
             (snd (connect_ws1 reliable instant None init)) eq_refl).
  reflexivity.
Defined.

Lemma notification_list_payload_witness :
  callback_calls
    (on_notification callbacks_return (mkClosure MAC NOTIFY 1) "aa:bb:cc:dd:ee:ff" 42
       (PList [1; 2; 3]%Z) init)
  = [(1, NOTIFY, [1; 2; 3]%Z)].
Proof.
  exact (notification_list_payload callbacks_return (mkClosure MAC NOTIFY 1)
           "aa:bb:cc:dd:ee:ff" 42 [1; 2; 3]%Z init eq_refl).
Defined.

End RegistryMore.

(** *** Further properties of the base64 codec *)

Module Base64More.

Import Base64 CodecSpec.

(** A property checked on every integer below [n] holds of each of
    them. *)
Lemma below_forall (n : nat) (f : Z -> bool) :
  forallb f (below n) = true ->
  forall z, (0 <= z < Z.of_nat n)%Z -> f z = true.
Proof.
  intros Hall z Hz. unfold below in Hall.
  rewrite forallb_forall in Hall. apply Hall.
  apply in_map_iff. exists (Z.to_nat z). split; [lia|].
  apply in_seq. lia.
Qed.

Lemma is_byte_range x : is_byte x = true <-> (0 <= x < 256)%Z.
Proof. unfold is_byte. rewrite andb_true_iff, Z.leb_le, Z.ltb_lt. reflexivity. Qed.

Lemma u8_is_byte z : is_byte (u8 z) = true.
Proof.
  apply is_byte_range. unfold u8.
  change 255%Z with (Z.ones 8). rewrite Z.land_ones by lia.
  apply Z.mod_pos_bound. reflexivity.
Qed.

Lemma a2b_base64_bytes s :
  forall quad_pos leftchar pads out r,
    forallb is_byte out = true ->
    a2b_base64 s quad_pos leftchar pads out = Ok r ->
    forallb is_byte r = true.
Proof.
  assert (forall out z, forallb is_byte out = true ->
                        forallb is_byte (out ++ [u8 z]) = true) as Hsnoc.
  { intros out z Hout. rewrite forallb_app, Hout. cbn.
    rewrite u8_is_byte. reflexivity. }
  induction s as [|c s IH]; intros quad_pos leftchar pads out r Hout Hr.
  - cbn in Hr. destruct quad_pos as [|[|q]]; inversion Hr; subst. exact Hout.
  - cbn [a2b_base64] in Hr.
    destruct (Ascii.eqb c "=").
    + destruct (2 <=? quad_pos)%nat; [destruct (4 <=? quad_pos + S pads)%nat|].
      * inversion Hr; subst. exact Hout.
      * exact (IH _ _ _ _ _ Hout Hr).
      * exact (IH _ _ _ _ _ Hout Hr).
    + destruct (b64_value c) as [v|]; [|exact (IH _ _ _ _ _ Hout Hr)].
      destruct quad_pos as [|[|[|q]]];
        [exact (IH _ _ _ _ _ Hout Hr) | | | ];
        exact (IH _ _ _ _ _ (Hsnoc _ _ Hout) Hr).
Qed.

(** Whatever text [b64decode] accepts, what it returns is a sequence of
    bytes: every element lies in the range from 0 to 255. *)
Lemma b64decode_yields_bytes s r :
  b64decode s = Ok r -> forallb is_byte r = true.
Proof.
  unfold b64decode. destruct (forallb is_ascii _); [|discriminate].
  apply a2b_base64_bytes. reflexivity.
Qed.

(** **** Encoding and decoding *)

Lemma chars_round_trip v :
  is_sextet v = true -> char_round_trips v = true.
Proof.
  intros Hv. apply (below_forall 64 char_round_trips).
  - vm_compute. reflexivity.
  - unfold is_sextet in Hv. apply andb_true_iff in Hv as [H0 H1].
    apply Z.leb_le in H0. apply Z.ltb_lt in H1. cbn. lia.
Qed.

Lemma bytes_round_trip a b :
  is_byte a = true -> is_byte b = true -> sextets_round_trip a b = true.
Proof.
  intros Ha Hb. apply is_byte_range in Ha, Hb.
  assert (forallb (fun a => forallb (sextets_round_trip a) (below 256)) (below 256) = true)
    as Hall by (vm_compute; reflexivity).
  pose proof (below_forall 256 _ Hall a ltac:(cbn; lia)) as Hrow.
  cbn beta in Hrow.
  exact (below_forall 256 _ Hrow b ltac:(cbn; lia)).
Qed.

(** The decoder on the character of a sextet. *)
Lemma a2b_base64_sextet v s quad_pos leftchar pads out :
  is_sextet v = true ->
  a2b_base64 (b64_char v :: s) quad_pos leftchar pads out =
    match quad_pos with
    | O => a2b_base64 s 1 v 0 out
    | 1%nat =>
        a2b_base64 s 2 (Z.land v 15) 0
          (out ++ [u8 (Z.lor (Z.shiftl leftchar 2) (Z.shiftr v 4))])
    | 2%nat =>
        a2b_base64 s 3 (Z.land v 3) 0
          (out ++ [u8 (Z.lor (Z.shiftl leftchar 4) (Z.shiftr v 2))])
    | _ => a2b_base64 s 0 0 0 (out ++ [u8 (Z.lor (Z.shiftl leftchar 6) v)])
    end.
Proof.
  intros Hv. pose proof (chars_round_trip v Hv) as Hc. unfold char_round_trips in Hc.
  apply andb_true_iff in Hc as [Hc _]. apply andb_true_iff in Hc as [Hval Hpad].
  apply negb_true_iff in Hpad.
  cbn [a2b_base64]. rewrite Hpad.
  destruct (b64_value (b64_char v)) as [v'|]; [|discriminate].
  apply Z.eqb_eq in Hval. subst v'. reflexivity.
Qed.

(** Lists taken three elements at a time. *)
Lemma list_ind3 {A} (P : list A -> Prop) :
  P [] ->
  (forall a, P [a]) ->
  (forall a b, P [a; b]) ->
  (forall a b c rest, P rest -> P (a :: b :: c :: rest)) ->
  forall l, P l.
Proof.
  intros H0 H1 H2 H3 l.
  assert (forall n l, length l <= n -> P l) as Hn.
  { clear l. induction n as [|n IH]; intros l Hl.
    - destruct l; [exact H0 | cbn in Hl; lia].
    - destruct l as [|a [|b [|c rest]]]; auto.
      apply H3. apply IH. cbn in Hl. lia. }
  apply (Hn (length l)). lia.
Qed.

Ltac sextet_facts a b :=
  let Hf := fresh "Hf" in
  pose proof (bytes_round_trip a b ltac:(assumption) ltac:(assumption)) as Hf;
  unfold sextets_round_trip in Hf;
  repeat match type of Hf with
         | (_ && _ = true) =>
             let Hl := fresh "Hs" in
             apply andb_true_iff in Hf as [Hf Hl];
             try apply Z.eqb_eq in Hl
         end;
  try apply Z.eqb_eq in Hf.

Lemma a2b_base64_encoded data :
  forallb is_byte data = true ->
  forall leftchar pads out,
    a2b_base64 (list_ascii_of_string (b64encode data)) 0 leftchar pads out
    = Ok (out ++ data).
Proof.
  induction data as [|a|a b|a b c rest IH] using list_ind3;
    intros Hbytes leftchar pads out.
  - cbn. rewrite app_nil_r. reflexivity.
  - cbn in Hbytes. apply andb_true_iff in Hbytes as [Ha _].
    sextet_facts a a.
    cbn [b64encode list_ascii_of_string].
    rewrite !a2b_base64_sextet by assumption. cbn.
    fold (sextet1 a). congruence.
  - cbn in Hbytes. apply andb_true_iff in Hbytes as [Ha Hb].
    apply andb_true_iff in Hb as [Hb _].
    sextet_facts a b. sextet_facts b b.
    cbn [b64encode list_ascii_of_string].
    fold (sextet1 a). fold (sextet2 a b).
    rewrite !a2b_base64_sextet by assumption. cbn.
    rewrite <- app_assoc. cbn. repeat f_equal; congruence.
  - cbn in Hbytes. apply andb_true_iff in Hbytes as [Ha Hb].
    apply andb_true_iff in Hb as [Hb Hc]. apply andb_true_iff in Hc as [Hc Hrest].
    sextet_facts a b. sextet_facts b c. sextet_facts c c.
    cbn [b64encode list_ascii_of_string].
    fold (sextet1 a). fold (sextet2 a b). fold (sextet3 b c). fold (sextet4 c).
    rewrite !a2b_base64_sextet by assumption.
    rewrite IH by exact Hrest.
    rewrite <- !app_assoc. cbn. repeat f_equal; congruence.
Qed.

Lemma sextet_char_facts v :
  is_sextet v = true ->
  is_ascii (b64_char v) = true /\ in_alphabet (b64_char v) = true.
Proof.
  intros Hv. pose proof (chars_round_trip v Hv) as Hc. unfold char_round_trips in Hc.
  apply andb_true_iff in Hc as [Hc Hascii]. apply andb_true_iff in Hc as [Hval _].
  split; [exact Hascii|]. unfold in_alphabet.
  destruct (b64_value (b64_char v)); [reflexivity | discriminate].
Qed.

Ltac char_facts :=
  repeat match goal with
         | Hv : is_sextet ?v = true |- _ =>
             let Ha := fresh "Hascii" in
             let Hi := fresh "Halpha" in
             pose proof (sextet_char_facts v Hv) as [Ha Hi]; clear Hv
         end;
  unfold sextet1, sextet2, sextet3, sextet4 in *;
  repeat match goal with
         | Ha : is_ascii (b64_char _) = true |- _ => rewrite ?Ha; clear Ha
         end;
  repeat match goal with
         | Hi : in_alphabet (b64_char _) = true |- _ => rewrite ?Hi; clear Hi
         end.

Lemma b64encode_is_ascii data :
  forallb is_byte data = true ->
  forallb is_ascii (list_ascii_of_string (b64encode data)) = true.
Proof.
  induction data as [|a|a b|a b c rest IH] using list_ind3; intros Hbytes.
  - reflexivity.
  - cbn in Hbytes. apply andb_true_iff in Hbytes as [Ha _].
    sextet_facts a a.
    cbn [b64encode list_ascii_of_string forallb].
    char_facts. reflexivity.
  - cbn in Hbytes. apply andb_true_iff in Hbytes as [Ha Hb].
    apply andb_true_iff in Hb as [Hb _].
    sextet_facts a b. sextet_facts b b.
    cbn [b64encode list_ascii_of_string forallb].
    fold (sextet1 a). fold (sextet2 a b).
    char_facts. reflexivity.
  - cbn in Hbytes. apply andb_true_iff in Hbytes as [Ha Hb].
    apply andb_true_iff in Hb as [Hb Hc]. apply andb_true_iff in Hc as [Hc Hrest].
    sextet_facts a b. sextet_facts b c. sextet_facts c c.
    cbn [b64encode list_ascii_of_string forallb].
    fold (sextet1 a). fold (sextet2 a b). fold (sextet3 b c). fold (sextet4 c).
    rewrite (IH Hrest). char_facts. reflexivity.
Qed.

Lemma b64decode_b64encode data :
  forallb is_byte data = true -> b64decode (b64encode data) = Ok data.
Proof.
  intros Hbytes. unfold b64decode.
  rewrite (b64encode_is_ascii data Hbytes).
  apply (a2b_base64_encoded data Hbytes 0%Z 0 []).
Qed.

(** The text made by [b64encode] of a sequence of bytes is standard
    base64: whole quads of characters of the alphabet, padded at the end
    only. *)
Lemma b64encode_is_standard data :
  forallb is_byte data = true -> is_standard_base64 (b64encode data) = true.
Proof.
  unfold is_standard_base64.
  induction data as [|a|a b|a b c rest IH] using list_ind3; intros Hbytes.
  - reflexivity.
  - cbn in Hbytes. apply andb_true_iff in Hbytes as [Ha _].
    sextet_facts a a.
    cbn [b64encode list_ascii_of_string standard_quads].
    char_facts. reflexivity.
  - cbn in Hbytes. apply andb_true_iff in Hbytes as [Ha Hb].
    apply andb_true_iff in Hb as [Hb _].
    sextet_facts a b. sextet_facts b b.
    cbn [b64encode list_ascii_of_string standard_quads].
    fold (sextet1 a). fold (sextet2 a b).
    char_facts. reflexivity.
  - cbn in Hbytes. apply andb_true_iff in Hbytes as [Ha Hb].
    apply andb_true_iff in Hb as [Hb Hc]. apply andb_true_iff in Hc as [Hc Hrest].
    sextet_facts a b. sextet_facts b c. sextet_facts c c.
    specialize (IH Hrest).
    cbn [b64encode list_ascii_of_string].
    fold (sextet1 a). fold (sextet2 a b). fold (sextet3 b c). fold (sextet4 c).
    change (standard_quads (?c1 :: ?c2 :: ?c3 :: ?c4 :: ?r))
      with (match r with
            | [] => in_alphabet c1 && in_alphabet c2
                    && ((in_alphabet c3 && (in_alphabet c4 || Ascii.eqb c4 "="))
                        || (Ascii.eqb c3 "=" && Ascii.eqb c4 "="))
            | _ => in_alphabet c1 && in_alphabet c2 && in_alphabet c3
                   && in_alphabet c4 && standard_quads r
            end).
    destruct (list_ascii_of_string (b64encode rest)); char_facts;
      [reflexivity | exact IH].
Qed.

(** **** Standard text *)










(** Decoding undoes encoding: for every sequence of bytes, the text made
    by [b64encode] is standard base64, and [b64decode] turns it back into
    the same bytes. *)
Lemma base64_round_trip data :
  forallb is_byte data = true ->
  is_standard_base64 (b64encode data) = true
  /\ b64decode (b64encode data) = Ok data.
Proof.
  intros Hbytes. split.
  - exact (b64encode_is_standard data Hbytes).
  - exact (b64decode_b64encode data Hbytes).
Qed.

Lemma base64_round_trip_witness :
  b64decode (b64encode [1; 2; 3; 255]%Z) = Ok [1; 2; 3; 255]%Z.
Proof. exact (proj2 (base64_round_trip [1; 2; 3; 255]%Z eq_refl)). Defined.

End Base64More.

(** *** Write payloads at the codec boundary *)

Module WriteCodecFacts.

Import Base64 BLEProxy ProxySpec.

Section Handler.

Context {T : Type} `{BLEManager T}.

Variable json_loads : string -> Result Json.
Variable py_str : Json -> string.
Variable BLEConnectMessage_init : list (string * Json) -> Result BLEConnectMessage.
Variable BLEDisconnectMessage_init : list (string * Json) -> Result unit.
Variable BLESubscribeMessage_init : list (string * Json) -> Result BLESubscribeMessage.
Variable BLEUnsubscribeMessage_init : list (string * Json) -> Result BLEUnsubscribeMessage.
Variable BLEDiscoverMessage_init : list (string * Json) -> Result BLEDiscoverMessage.
Variable send_json : list Event -> Event -> Result unit.

#[local] Abbreviation loop_round :=
  (loop_round json_loads py_str BLEConnectMessage_init BLEDisconnectMessage_init
     BleSchemas.BLEWriteMessage_init BLESubscribeMessage_init
     BLEUnsubscribeMessage_init BLEDiscoverMessage_init send_json).
#[local] Abbreviation rejection :=
  (rejection json_loads py_str BLEConnectMessage_init BLEDisconnectMessage_init
     BleSchemas.BLEWriteMessage_init BLESubscribeMessage_init
     BLEUnsubscribeMessage_init BLEDiscoverMessage_init).






End Handler.

Import Fixtures.

(** The frame with the payload text [AQ!ID], which is not base64 text:
    one schema-invalid error, and no call on the manager. *)
Example foreign_character_is_schema_invalid :
  let h' := loop_round_checked socket_open (Text (write_frame "AQ!ID"))
              (ready (Some MAC)) in
  sent h' = [Error "Invalid message format: data" None]
  /\ manager_calls h' = [].
Proof. vm_compute. split; reflexivity. Qed.


End WriteCodecFacts.

(** *** Further properties of the session handler *)

Module SessionMore.

Import Base64 BLEProxy ProxySpec SessionSpec CodecSpec.

Ltac run_py :=
  unfold bind, get, modify, ret, raise, try_except, try_finally in *;
  cbn beta iota zeta in *.

(** Taking the handlers apart along every branch they have. *)
Ltac branches :=
  unfold BLEProxy.handle_connect, BLEProxy.handle_disconnect,
    BLEProxy.handle_write, BLEProxy.handle_subscribe,
    BLEProxy.handle_unsubscribe, BLEProxy.handle_discover,
    BLEProxy.send_status, BLEProxy.send_error, BLEProxy.send_message,
    call_manager, lift, logger;
  run_py;
  repeat (cbn [fst snd ble_manager sent manager_calls running log
               record_manager_call set_ble_manager record_sent record_log
               set_running];
          match goal with
          | |- context [match ?x with _ => _ end] =>
              lazymatch x with
              | context [match _ with _ => _ end] => fail
              | _ => destruct x eqn:?
              end
          end);
  cbn [fst snd ble_manager sent manager_calls running log
       record_manager_call set_ble_manager record_sent record_log
       set_running].

Ltac one_answer_done :=
  split; [reflexivity|]; eexists; split; [reflexivity|];
  split;
  [repeat match goal with
          | Hs : ?send _ _ = _ |- _ => rewrite Hs
          end; reflexivity
  |first [left; reflexivity | right; eexists; reflexivity]].

Section Handler.

Context {T : Type} `{BLEManager T}.

Variable json_loads : string -> Result Json.
Variable py_str : Json -> string.
Variable BLEConnectMessage_init : list (string * Json) -> Result BLEConnectMessage.
Variable BLEDisconnectMessage_init : list (string * Json) -> Result unit.
Variable BLEWriteMessage_init : list (string * Json) -> Result BLEWriteMessage.
Variable BLESubscribeMessage_init : list (string * Json) -> Result BLESubscribeMessage.
Variable BLEUnsubscribeMessage_init : list (string * Json) -> Result BLEUnsubscribeMessage.
Variable BLEDiscoverMessage_init : list (string * Json) -> Result BLEDiscoverMessage.
Variable send_json : list Event -> Event -> Result unit.

#[local] Abbreviation one_answer := (one_answer (T := T) send_json).
#[local] Abbreviation answers_with_one := (answers_with_one (T := T) send_json).
#[local] Abbreviation loop_round :=
  (loop_round json_loads py_str BLEConnectMessage_init BLEDisconnectMessage_init
     BLEWriteMessage_init BLESubscribeMessage_init BLEUnsubscribeMessage_init
     BLEDiscoverMessage_init send_json).
#[local] Abbreviation message_loop :=
  (message_loop json_loads py_str BLEConnectMessage_init BLEDisconnectMessage_init
     BLEWriteMessage_init BLESubscribeMessage_init BLEUnsubscribeMessage_init
     BLEDiscoverMessage_init send_json).
#[local] Abbreviation handle get_ble_manager :=
  (handle json_loads py_str BLEConnectMessage_init BLEDisconnectMessage_init
     BLEWriteMessage_init BLESubscribeMessage_init BLEUnsubscribeMessage_init
     BLEDiscoverMessage_init send_json get_ble_manager).

Lemma connect_answers message : answers_with_one (handle_connect send_json message).
Proof. intros h. branches; one_answer_done. Qed.

Lemma disconnect_answers message : answers_with_one (handle_disconnect send_json message).
Proof. intros h. branches; one_answer_done. Qed.

Lemma write_answers message : answers_with_one (handle_write send_json message).
Proof. intros h. branches; one_answer_done. Qed.

Lemma subscribe_answers message : answers_with_one (handle_subscribe send_json message).
Proof. intros h. branches; one_answer_done. Qed.

Lemma unsubscribe_answers message :
  answers_with_one (handle_unsubscribe send_json message).
Proof. intros h. branches; one_answer_done. Qed.

Lemma discover_answers message : answers_with_one (handle_discover send_json message).
Proof. intros h. branches; one_answer_done. Qed.

Lemma error_answers text details : answers_with_one (send_error send_json text details).
Proof. intros h. branches; one_answer_done. Qed.

Lemma one_answer_in_loop (m : M (@Handler T) unit) handler h :
  answers_with_one m ->
  one_answer h (snd (try_except (try_except m handler)
                       (on_loop_exception send_json) h)).
Proof.
  intros Hm. destruct (Hm h) as [Hr Hone].
  unfold try_except. destruct (m h) as [[[]|e] h1]; cbn in *;
    [exact Hone | discriminate].
Qed.

Lemma one_answer_decode_exception e h :
  one_answer h
    (snd (try_except
            (try_except (raise e)
               (fun e =>
                  match exc_class e with
                  | ValidationError =>
                      send_error send_json ("Invalid message format: " +:+ exc_str e) None
                  | JSONDecodeError =>
                      send_error send_json ("Invalid JSON: " +:+ exc_str e) None
                  | _ => raise e
                  end))
            (on_loop_exception send_json) h)).
Proof.
  destruct (BLEProxyFacts.decode_exception_answer send_json e h)
    as [Hsent Hcalls _ Hrun].
  eexists. split; [exact Hsent|]. split; [exact Hrun | left; exact Hcalls].
Qed.

Lemma loop_round_one_answer x h :
  is_frame x = true -> one_answer h (loop_round x h).
Proof.
  intros Hx. destruct x as [data| |e]; [| discriminate |].
  - unfold BLEProxy.loop_round, BLEProxy.handle_message, lift.
    unfold bind at 1 2. cbn beta iota.
    destruct (json_loads data) as [message|e];
      [|exact (one_answer_decode_exception e h)].
    cbn beta iota.
    destruct (get_type message) as [msg_type|e];
      [|exact (one_answer_decode_exception e h)].
    cbn beta iota.
    repeat match goal with
           | |- context [if type_is msg_type ?t then _ else _] =>
               destruct (type_is msg_type t);
               [unfold bind at 1; cbn beta iota;
                match goal with
                | |- context [match ?init (items_of message) with _ => _ end] =>
                    destruct (init (items_of message)) as [m|e];
                    [|exact (one_answer_decode_exception e h)]
                end|]
           end;
      apply one_answer_in_loop;
      auto using connect_answers, disconnect_answers, write_answers,
        subscribe_answers, unsubscribe_answers, discover_answers, error_answers.
  - unfold BLEProxy.loop_round, on_loop_exception, logger. run_py.
    destruct (error_answers ("Error handling message: " +:+ exc_str e) None
                (record_log ERROR ("Error handling message: " +:+ exc_str e) h))
      as [_ Hone].
    exact Hone.
Qed.

(** X14.  As long as no awaited call is cancelled (the socket and the
    manager return or raise exceptions derived from [Exception], which is
    what [send_json], the operations of the manager and [ReceiveError]
    range over), handling a frame passes exactly one event to the socket
    and calls the manager at most once, whatever the frame contains; the
    handler stops running exactly when the socket refuses that event, so
    no error raised by the manager or in decoding ends the session. *)
Theorem every_frame_gets_one_answer x h :
  is_frame x = true ->
  let h' := loop_round x h in
  exists ev,
    sent h' = sent h ++ [ev]
    /\ running h' = (if is_ok (send_json (sent h) ev) then running h else false)
    /\ (manager_calls h' = manager_calls h
        \/ exists c, manager_calls h' = manager_calls h ++ [c]).
Proof. intros Hx. exact (loop_round_one_answer x h Hx). Qed.

(** X15.  The loop ends at the disconnection of the socket: what the
    socket would deliver afterwards is never handled, nothing is sent and
    the manager is not called; and a handler that is not running handles
    nothing at all. *)
Theorem loop_ends_at_disconnect rest h :
  let h' := message_loop (WebSocketDisconnect :: rest) h in
  sent h' = sent h
  /\ manager_calls h' = manager_calls h
  /\ ble_manager h' = ble_manager h
  /\ (running h = false -> forall incoming, message_loop incoming h = h).
Proof.
  cbv zeta. cbn [BLEProxy.message_loop BLEProxy.loop_round].
  destruct (running h) eqn:Hrun; cbn; repeat split; try reflexivity;
    try discriminate.
  intros _ incoming. destruct incoming; cbn; rewrite Hrun; reflexivity.
Qed.

(** X16.  When the socket refuses the answer to a frame, the loop ends
    there: the handler stops running and none of the later frames is
    handled. *)
Theorem send_failure_ends_loop x rest h :
  is_frame x = true ->
  running h = true ->
  (forall ev, is_ok (send_json (sent h) ev) = false) ->
  running (loop_round x h) = false
  /\ message_loop (x :: rest) h = loop_round x h.
Proof.
  intros Hx Hrun Hfail.
  destruct (loop_round_one_answer x h Hx) as (ev & _ & Hrunning & _).
  rewrite (Hfail ev) in Hrunning.
  split; [exact Hrunning|].
  cbn [BLEProxy.message_loop]. rewrite Hrun.
  destruct x as [data| |e]; try discriminate;
    (destruct rest; cbn [BLEProxy.message_loop]; rewrite Hrunning; reflexivity).
Qed.

(** X17.  On a socket that accepts every event, a running handler answers
    each frame it receives: after [n] frames exactly [n] events have been
    sent, the manager has been called at most [n] times, and the handler
    is still running. *)
Theorem healthy_session_answers_every_frame incoming h :
  (forall frames ev, send_json frames ev = Ok tt) ->
  forallb is_frame incoming = true ->
  running h = true ->
  let h' := message_loop incoming h in
  length (sent h') = length (sent h) + length incoming
  /\ length (manager_calls h') <= length (manager_calls h) + length incoming
  /\ running h' = true.
Proof.
  intros Hsend. cbv zeta. revert h.
  induction incoming as [|x incoming IH]; intros h Hframes Hrun.
  - cbn. rewrite Hrun. cbn. repeat split; try lia. exact Hrun.
  - cbn in Hframes. apply andb_true_iff in Hframes as [Hx Hframes].
    destruct (loop_round_one_answer x h Hx) as (ev & Hsent & Hrunning & Hcalls).
    rewrite Hsend in Hrunning. cbn [is_ok] in Hrunning. rewrite Hrun in Hrunning.
    assert (message_loop (x :: incoming) h = message_loop incoming (loop_round x h))
      as Hstep.
    { cbn [BLEProxy.message_loop]. rewrite Hrun.
      destruct x; [reflexivity | discriminate | reflexivity]. }
    rewrite Hstep.
    destruct (IH (loop_round x h) Hframes Hrunning) as (Hlen & Hm & Hr).
    rewrite Hlen, Hsent, length_app. cbn [length].
    split; [lia|]. split; [|exact Hr].
    destruct Hcalls as [Hcalls | [c Hcalls]]; rewrite Hcalls in Hm;
      [|rewrite length_app in Hm; cbn [length] in Hm]; lia.
Qed.

(** **** Dispatch *)

Ltac calls_only_done :=
  first [left; reflexivity | right; eexists; split; reflexivity].

Lemma connect_calls message (h : @Handler T) :
  fst (handle_connect send_json message h) = Ok tt
  /\ calls_only CONNECT h (snd (handle_connect send_json message h)).
Proof. branches; (split; [reflexivity | calls_only_done]). Qed.

Lemma disconnect_calls message (h : @Handler T) :
  fst (handle_disconnect send_json message h) = Ok tt
  /\ calls_only DISCONNECT h (snd (handle_disconnect send_json message h)).
Proof. branches; (split; [reflexivity | calls_only_done]). Qed.

Lemma write_calls message (h : @Handler T) :
  fst (handle_write send_json message h) = Ok tt
  /\ calls_only WRITE h (snd (handle_write send_json message h)).
Proof. branches; (split; [reflexivity | calls_only_done]). Qed.

Lemma subscribe_calls message (h : @Handler T) :
  fst (handle_subscribe send_json message h) = Ok tt
  /\ calls_only SUBSCRIBE h (snd (handle_subscribe send_json message h)).
Proof. branches; (split; [reflexivity | calls_only_done]). Qed.

Lemma unsubscribe_calls message (h : @Handler T) :
  fst (handle_unsubscribe send_json message h) = Ok tt
  /\ calls_only UNSUBSCRIBE h (snd (handle_unsubscribe send_json message h)).
Proof. branches; (split; [reflexivity | calls_only_done]). Qed.

Lemma discover_calls message (h : @Handler T) :
  fst (handle_discover send_json message h) = Ok tt
  /\ calls_only DISCOVER h (snd (handle_discover send_json message h)).
Proof. branches; (split; [reflexivity | calls_only_done]). Qed.

Lemma calls_only_in_loop t (m : M (@Handler T) unit) handler (h : @Handler T) :
  fst (m h) = Ok tt /\ calls_only t h (snd (m h)) ->
  calls_only t h (snd (try_except (try_except m handler)
                         (on_loop_exception send_json) h)).
Proof.
  intros [Hr Hcalls]. unfold try_except.
  destruct (m h) as [[[]|e] h1]; cbn in *; [exact Hcalls | discriminate].
Qed.

Lemma calls_only_decode_exception t e (h : @Handler T) :
  calls_only t h
    (snd (try_except
            (try_except (raise e)
               (fun e =>
                  match exc_class e with
                  | ValidationError =>
                      send_error send_json ("Invalid message format: " +:+ exc_str e) None
                  | JSONDecodeError =>
                      send_error send_json ("Invalid JSON: " +:+ exc_str e) None
                  | _ => raise e
                  end))
            (on_loop_exception send_json) h)).
Proof.
  destruct (BLEProxyFacts.decode_exception_answer send_json e h) as [_ Hcalls _ _].
  left. exact Hcalls.
Qed.

(** X13.  The command tag of a frame decides which operation of the
    manager is called: while a frame with a recognised tag is handled, the
    manager is called at most once, and only with the operation of that
    tag. *)
Theorem dispatch_follows_tag data message msg_type t (h : @Handler T) :
  json_loads data = Ok message ->
  get_type message = Ok msg_type ->
  recognised msg_type = Some t ->
  let h' := loop_round (Text data) h in
  manager_calls h' = manager_calls h
  \/ exists c, manager_calls h' = manager_calls h ++ [c] /\ call_kind c = t.
Proof.
  intros Hjson Htype Htag. cbv zeta.
  change (calls_only t h (loop_round (Text data) h)).
  unfold BLEProxy.loop_round, BLEProxy.handle_message, lift.
  unfold bind at 1 2. cbn beta iota. rewrite Hjson. cbn beta iota.
  rewrite Htype. cbn beta iota.
  unfold recognised in Htag.
  repeat match goal with
         | |- context [if type_is msg_type ?k then _ else _] =>
             destruct (type_is msg_type k);
             [inversion Htag; subst t;
              unfold bind at 1; cbn beta iota;
              match goal with
              | |- context [match ?init (items_of message) with _ => _ end] =>
                  destruct (init (items_of message)) as [m|e];
                  [|exact (calls_only_decode_exception _ e h)]
              end;
              apply calls_only_in_loop;
              auto using connect_calls, disconnect_calls, write_calls,
                subscribe_calls, unsubscribe_calls, discover_calls|]
         end.
  discriminate.
Qed.

(** **** Commands that fail, and payloads *)

Ltac reported Hm :=
  let Hop := fresh "Hop" in
  intros Hop;
  unfold BLEProxy.handle_connect, BLEProxy.handle_disconnect,
    BLEProxy.handle_write, BLEProxy.handle_subscribe,
    BLEProxy.handle_unsubscribe, BLEProxy.handle_discover,
    BLEProxy.send_status, BLEProxy.send_error, BLEProxy.send_message,
    call_manager, lift, logger;
  run_py; rewrite ?Hm;
  match type of Hop with
  | fst ?op = Raise _ => destruct op as [[?|?] ?]; cbn [fst] in Hop
  end;
  [discriminate|];
  inversion Hop; subst;
  cbn [fst snd ble_manager sent manager_calls running log
       record_manager_call set_ble_manager record_sent record_log set_running];
  destruct (send_json _ _); split; reflexivity.

(** X18.  When an operation of the manager raises an exception [e]
    derived from [Exception], the command handler catches it: the handler
    returns normally after sending exactly one error event, whose text is
    the name of the failed command followed by the text of [e].  (What is
    not derived from [Exception], such as the cancellation of the call,
    is not among the values of [e].) *)
Theorem manager_failure_is_reported h m e :
  ble_manager h = Some m ->
  (forall message,
      fst (connect (connect_service_uuid message) (connect_device_address message) m)
      = Raise e ->
      fst (handle_connect send_json message h) = Ok tt
      /\ sent (snd (handle_connect send_json message h))
         = sent h ++ [Error ("Connect failed: " +:+ exc_str e) None])
  /\ (forall message,
         fst (disconnect m) = Raise e ->
         fst (handle_disconnect send_json message h) = Ok tt
         /\ sent (snd (handle_disconnect send_json message h))
            = sent h ++ [Error ("Disconnect failed: " +:+ exc_str e) None])
  /\ (forall message data,
         b64decode (write_data message) = Ok data ->
         fst (write (write_characteristic_uuid message) data
                (write_with_response message) m) = Raise e ->
         fst (handle_write send_json message h) = Ok tt
         /\ sent (snd (handle_write send_json message h))
            = sent h ++ [Error ("Write failed: " +:+ exc_str e) None])
  /\ (forall message,
         fst (subscribe (subscribe_characteristic_uuid message) m) = Raise e ->
         fst (handle_subscribe send_json message h) = Ok tt
         /\ sent (snd (handle_subscribe send_json message h))
            = sent h ++ [Error ("Subscribe failed: " +:+ exc_str e) None])
  /\ (forall message,
         fst (unsubscribe (unsubscribe_characteristic_uuid message) m) = Raise e ->
         fst (handle_unsubscribe send_json message h) = Ok tt
         /\ sent (snd (handle_unsubscribe send_json message h))
            = sent h ++ [Error ("Unsubscribe failed: " +:+ exc_str e) None])
  /\ (forall message,
         fst (discover_devices (discover_service_uuid message)
                (discover_timeout message) m) = Raise e ->
         fst (handle_discover send_json message h) = Ok tt
         /\ sent (snd (handle_discover send_json message h))
            = sent h ++ [Error ("Discovery failed: " +:+ exc_str e) None]).
Proof.
  intros Hm. split; [|split; [|split; [|split; [|split]]]].
  - intros message. reported Hm.
  - intros message. reported Hm.
  - intros message data Hdata Hop.
    unfold BLEProxy.handle_write, BLEProxy.send_status, BLEProxy.send_error,
      BLEProxy.send_message, call_manager, lift, logger.
    run_py. rewrite Hdata, Hm.
    destruct (write _ data _ m) as [[?|?] ?]; cbn [fst] in Hop; [discriminate|].
    inversion Hop; subst.
    cbn [fst snd ble_manager sent manager_calls running log
         record_manager_call set_ble_manager record_sent record_log set_running].
    destruct (send_json _ _); split; reflexivity.
  - intros message. reported Hm.
  - intros message. reported Hm.
  - intros message. reported Hm.
Qed.

(** X19.  The payload of a notification survives the wire: the handler
    sends it as the base64 text of its bytes, that text is standard
    base64, and a write whose data is that text hands exactly those bytes
    to the manager. *)
Theorem notification_payload_can_be_written_back
        characteristic_uuid data with_response h m :
  forallb is_byte data = true ->
  ble_manager h = Some m ->
  sent (snd (notification_callback send_json characteristic_uuid data h))
  = sent h ++ [Notification characteristic_uuid (b64encode data)]
  /\ is_standard_base64 (b64encode data) = true
  /\ manager_calls
       (snd (handle_write send_json
               (mkWrite characteristic_uuid (b64encode data) with_response) h))
     = manager_calls h ++ [MWrite characteristic_uuid data with_response].
Proof.
  intros Hbytes Hm. split; [|split].
  - unfold notification_callback, BLEProxy.send_message.
    destruct (send_json _ _); reflexivity.
  - exact (Base64More.b64encode_is_standard data Hbytes).
  - unfold BLEProxy.handle_write, BLEProxy.send_status, BLEProxy.send_error,
      BLEProxy.send_message, call_manager, lift, logger.
    run_py. cbn [write_data write_characteristic_uuid write_with_response].
    rewrite (Base64More.b64decode_b64encode data Hbytes), Hm.
    destruct (write characteristic_uuid data with_response m) as [[[]|e] m'];
      cbn [fst snd ble_manager sent manager_calls running log
           record_manager_call set_ble_manager record_sent record_log set_running];
      repeat match goal with
             | |- context [send_json ?s ?ev] => destruct (send_json s ev)
             end; reflexivity.
Qed.

(** **** The whole session *)

Lemma message_loop_sent_grows incoming :
  forall h, exists rest, sent (message_loop incoming h) = sent h ++ rest.
Proof.
  induction incoming as [|x incoming IH]; intros h;
    cbn [BLEProxy.message_loop]; destruct (running h) eqn:Hrun;
    try (exists []; cbn; symmetry; apply app_nil_r).
  destruct x as [data| |e];
    try (exists []; cbn; symmetry; apply app_nil_r).
  - destruct (loop_round_one_answer (Text data) h eq_refl) as (ev & Hsent & _).
    destruct (IH (loop_round (Text data) h)) as [rest Hrest].
    exists (ev :: rest). rewrite Hrest, Hsent, <- app_assoc. reflexivity.
  - destruct (loop_round_one_answer (ReceiveError e) h eq_refl) as (ev & Hsent & _).
    destruct (IH (loop_round (ReceiveError e) h)) as [rest Hrest].
    exists (ev :: rest). rewrite Hrest, Hsent, <- app_assoc. reflexivity.
Qed.

Lemma cleanup_effect (h : @Handler T) :
  running (cleanup h) = false
  /\ sent (cleanup h) = sent h
  /\ (forall m', ble_manager (cleanup h) = Some m' ->
                 is_connected m' = false
                 \/ exists calls, manager_calls (cleanup h) = calls ++ [MDisconnect])
  /\ (ble_manager h = None ->
      manager_calls (cleanup h) = manager_calls h /\ ble_manager (cleanup h) = None).
Proof.
  unfold cleanup, call_manager, logger. run_py.
  destruct (ble_manager h) as [m|] eqn:Hm; [destruct (is_connected m) eqn:Hc|].
  - rewrite ?Hm. destruct (disconnect m) as [[[]|e] m1]; cbn;
      (split; [reflexivity|]); (split; [reflexivity|]);
      (split; [intros m' _; right; eexists; reflexivity | discriminate]).
  - cbn. rewrite ?Hm. split; [reflexivity|]. split; [reflexivity|].
    split; [|discriminate]. intros m' Heq. inversion Heq; subst m'. left. exact Hc.
  - cbn. rewrite ?Hm. split; [reflexivity|]. split; [reflexivity|].
    split; [discriminate|]. intros _. split; reflexivity.
Qed.

(** X20.  When the BLE backend is not available, a fresh handler sends one
    error event that says so and ends without entering the loop: no frame
    is handled and the manager is never called.  Any other exception of
    [get_ble_manager] leaves [handle] as it is, with nothing sent.  Either
    way the handler is no longer running. *)
Theorem handle_without_backend incoming e h :
  ble_manager h = None ->
  let r := fst (handle (Raise e) incoming h) in
  let h' := snd (handle (Raise e) incoming h) in
  running h' = false
  /\ manager_calls h' = manager_calls h
  /\ match exc_class e with
     | BLENotAvailableError =>
         r = Ok tt
         /\ sent h' =
              sent h ++ [Error ("BLE Proxy not available: " +:+ exc_str e +:+ ". "
                                  +:+ "Install with: poetry install -E ble-proxy") None]
     | _ => r = Raise e /\ sent h' = sent h
     end.
Proof.
  intros Hnone. cbv zeta. unfold BLEProxy.handle. run_py.
  assert (forall h0 : @Handler T,
             ble_manager h0 = None ->
             running (cleanup h0) = false
             /\ manager_calls (cleanup h0) = manager_calls h0
             /\ sent (cleanup h0) = sent h0) as Hclean.
  { intros h0 H0. destruct (cleanup_effect h0) as (Hr & Hs & _ & Hn).
    destruct (Hn H0) as [Hc _]. repeat split; assumption. }
  destruct (exc_class e) eqn:Hclass; cbn [fst snd];
    try (destruct (Hclean (set_running true h) Hnone) as (Hr & Hc & Hs);
         rewrite Hr, Hc, Hs; repeat split; reflexivity).
  unfold BLEProxy.send_error, BLEProxy.send_message.
  cbn [sent set_running].
  destruct (send_json _ _) as [[]|e0]; cbn [fst snd];
    match goal with
    | |- context [cleanup ?h0] =>
        destruct (Hclean h0 Hnone) as (Hr & Hc & Hs); rewrite Hr, Hc, Hs
    end; repeat split; reflexivity.
Qed.

(** X21.  With a backend, and as long as no awaited call is cancelled
    (the socket and the manager return or raise exceptions derived from
    [Exception]), [handle] returns normally and cleans up: the first event
    sent is the ready status, the handler is no longer running at the end,
    and a manager that is still connected when the loop is over has been
    asked to disconnect as the last call; an error raised by that
    disconnect is not propagated. *)
Theorem handle_cleans_up incoming m h :
  let r := fst (handle (Ok m) incoming h) in
  let h' := snd (handle (Ok m) incoming h) in
  r = Ok tt
  /\ running h' = false
  /\ (exists rest,
         sent h' =
           sent h ++ Status false (status_device_name (Some m)) "BLE Proxy ready" :: rest)
  /\ (forall m', ble_manager h' = Some m' ->
                 is_connected m' = false
                 \/ exists calls, manager_calls h' = calls ++ [MDisconnect]).
Proof.
  cbv zeta. unfold BLEProxy.handle, BLEProxy.send_status, BLEProxy.send_message.
  run_py. cbn [ble_manager set_ble_manager set_running sent].
  fold (status_device_name (Some m)).
  set (ready := Status false (status_device_name (Some m)) "BLE Proxy ready").
  assert (forall h1 : @Handler T,
             sent h1 = sent h ++ [ready] ->
             running (cleanup (message_loop incoming h1)) = false
             /\ (exists rest,
                    sent (cleanup (message_loop incoming h1)) = sent h ++ ready :: rest)
             /\ (forall m', ble_manager (cleanup (message_loop incoming h1)) = Some m' ->
                            is_connected m' = false
                            \/ exists calls,
                                manager_calls (cleanup (message_loop incoming h1))
                                = calls ++ [MDisconnect])) as Hrest.
  { intros h1 Hsent.
    destruct (cleanup_effect (message_loop incoming h1)) as (Hr & Hs & Hd & _).
    destruct (message_loop_sent_grows incoming h1) as [rest Hgrow].
    split; [exact Hr|]. split; [|exact Hd].
    exists rest. rewrite Hs, Hgrow, Hsent, <- app_assoc. reflexivity. }
  destruct (send_json _ ready) as [[]|e0]; cbn [fst snd];
    match goal with
    | |- context [cleanup (BLEProxy.message_loop _ _ _ _ _ _ _ _ _ _ ?h1)] =>
        destruct (Hrest h1 eq_refl) as (Hr & Hs & Hd)
    end; repeat split; assumption.
Qed.

End Handler.

Import Fixtures.

Lemma every_frame_gets_one_answer_witness :
  exists ev,
    sent (loop_round_stub socket_open (Text FRAME_UNKNOWN) (ready (Some MAC))) = [ev].
Proof.
  destruct (every_frame_gets_one_answer json_loads_stub py_str_stub connect_init_stub
              disconnect_init_stub write_init_stub subscribe_init_stub
              unsubscribe_init_stub discover_init_stub socket_open
              (Text FRAME_UNKNOWN) (ready (Some MAC)) eq_refl) as (ev & Hsent & _).
  exists ev. exact Hsent.
Defined.

Lemma send_failure_ends_loop_witness :
  message_loop_stub socket_closed [Text FRAME_MALFORMED; Text FRAME_UNKNOWN]
    (ready (Some MAC))
  = loop_round_stub socket_closed (Text FRAME_MALFORMED) (ready (Some MAC)).
Proof.
  destruct (send_failure_ends_loop json_loads_stub py_str_stub connect_init_stub
              disconnect_init_stub write_init_stub subscribe_init_stub
              unsubscribe_init_stub discover_init_stub socket_closed
              (Text FRAME_MALFORMED) [Text FRAME_UNKNOWN] (ready (Some MAC))
              eq_refl eq_refl (fun _ => eq_refl)) as [_ Hloop].
  exact Hloop.
Defined.

Lemma healthy_session_witness :
  length (sent (message_loop_stub socket_open
                  [Text FRAME_MALFORMED; Text FRAME_UNKNOWN; Text FRAME_ARRAY]
                  (ready (Some MAC))))
  = 3.
Proof.
  destruct (healthy_session_answers_every_frame json_loads_stub py_str_stub
              connect_init_stub disconnect_init_stub write_init_stub
              subscribe_init_stub unsubscribe_init_stub discover_init_stub socket_open
              [Text FRAME_MALFORMED; Text FRAME_UNKNOWN; Text FRAME_ARRAY]
              (ready (Some MAC)) (fun _ _ => eq_refl) eq_refl eq_refl) as (Hlen & _).
  exact Hlen.
Defined.

Lemma dispatch_follows_tag_witness :
  manager_calls (loop_round_stub socket_open (Text FRAME_WRITE_NO_FIELDS) (ready (Some MAC)))
  = [].
Proof.
  destruct (dispatch_follows_tag json_loads_stub py_str_stub connect_init_stub
              disconnect_init_stub write_init_stub subscribe_init_stub
              unsubscribe_init_stub discover_init_stub socket_open
              FRAME_WRITE_NO_FIELDS (JObject [("type", JString "write")])
              (JString "write") WRITE (ready (Some MAC)) eq_refl eq_refl eq_refl)
    as [Hsame | (c & Hcalls & _)].
  - exact Hsame.
  - exfalso. apply (f_equal (@length _)) in Hcalls. vm_compute in Hcalls. discriminate.
Defined.

Lemma manager_failure_witness :
  sent (snd (handle_subscribe socket_open (mkSubscribe NOTIFY) (ready None)))
  = [Error "Subscribe failed: Not connected to device" None].
Proof.
  destruct (manager_failure_is_reported socket_open (ready None) None
              NOT_CONNECTED_TO_DEVICE eq_refl) as (_ & _ & _ & Hsub & _).
  exact (proj2 (Hsub (mkSubscribe NOTIFY) eq_refl)).
Defined.

Lemma notification_payload_witness :
  manager_calls
    (snd (handle_write socket_open (mkWrite WRITE_UUID (b64encode [1; 2; 3]%Z) true)
            (ready (Some MAC))))
  = [MWrite WRITE_UUID [1; 2; 3]%Z true].
Proof.
  exact (proj2 (proj2 (notification_payload_can_be_written_back socket_open
                  WRITE_UUID [1; 2; 3]%Z true (ready (Some MAC)) (Some MAC)
                  eq_refl eq_refl))).
Defined.

Lemma handle_without_backend_witness :
  sent (snd (handle_stub socket_open (Raise BLE_NOT_AVAILABLE)
               [Text FRAME_UNKNOWN] init))
  = [Error ("BLE Proxy not available: bleak is not installed. "
              +:+ "Install with: poetry install -E ble-proxy") None].
Proof.
  destruct (handle_without_backend json_loads_stub py_str_stub connect_init_stub
              disconnect_init_stub write_init_stub subscribe_init_stub
              unsubscribe_init_stub discover_init_stub socket_open
              [Text FRAME_UNKNOWN] BLE_NOT_AVAILABLE init eq_refl)
    as (_ & _ & _ & Hsent).
  exact Hsent.
Defined.

End SessionMore.

(** *** Further properties of the MAC validator *)

Module SchemasMore.

Import Re Schemas SchemasFacts.

(** X22.  The validator accepts exactly the texts whose normal form
    (upper case, colons for hyphens) is six colon-separated pairs of
    hexadecimal digits, alone or followed by one line feed, and it returns
    that normal form; every other text raises the invalid-format error. *)
Theorem accepted_mac_addresses v :
  (forall v',
      validate_mac_address v = Ok v' <->
      v' = normalize_mac v
      /\ (is_canonical_mac v' = true
          \/ exists c,
              list_ascii_of_string v' = list_ascii_of_string c ++ [LF]
              /\ is_canonical_mac c = true))
  /\ (forall e, validate_mac_address v = Raise e -> e = INVALID_MAC).
Proof.
  split.
  - intros v'. apply validate_mac_address_accepts.
  - intros e. unfold validate_mac_address.
    destruct (negb _); intros Hv; inversion Hv. reflexivity.
Qed.

Lemma normalize_char_idempotent (c : ascii) :
  let f := fun c => if Ascii.eqb (upper_char c) "-" then ":"%char else upper_char c in
  f (f c) = f c.
Proof.
  destruct c as [[] [] [] [] [] [] [] []]; vm_compute; reflexivity.
Qed.

Lemma normalize_mac_cons c s :
  normalize_mac (String c s) =
    String (if Ascii.eqb (upper_char c) "-" then ":"%char else upper_char c)
      (normalize_mac s).
Proof. reflexivity. Qed.

Lemma normalize_mac_idempotent s :
  normalize_mac (normalize_mac s) = normalize_mac s.
Proof.
  induction s as [|c s IH]; [reflexivity|].
  rewrite !normalize_mac_cons, IH. f_equal. apply normalize_char_idempotent.
Qed.

(** X23.  Validation is idempotent: a text and its normal form are judged
    alike, so an address the validator returned is accepted again and
    returned unchanged. *)
Theorem validation_is_idempotent v :
  validate_mac_address (normalize_mac v) = validate_mac_address v
  /\ (forall v', validate_mac_address v = Ok v' -> validate_mac_address v' = Ok v').
Proof.
  assert (validate_mac_address (normalize_mac v) = validate_mac_address v) as Hnorm.
  { unfold validate_mac_address. rewrite normalize_mac_idempotent. reflexivity. }
  split; [exact Hnorm|].
  intros v' Hv. assert (v' = normalize_mac v) as ->.
  { unfold validate_mac_address in Hv. destruct (negb _); inversion Hv. reflexivity. }
  rewrite Hnorm. exact Hv.
Qed.

End SchemasMore.
